(** * stem.version: tor version parsing, rendering, ordering and discovery

    A shallow embedding of [stem/version.py] (Python 2).  Python [str] values
    are byte strings and are modelled by [string]; Python [int]s are unbounded
    and are modelled by [Z]; [None]-or-value attributes are [option]s.
    Exceptions are an explicit result type, and the module-level
    [VERSION_CACHE] dictionary is threaded through a small state monad. *)

From Stdlib Require Import ZArith Lia Bool Ascii String DecimalString DecimalZ DecimalPos.
From stdpp Require Import base option list strings gmap.

Local Open Scope Z_scope.

(** ** Python string primitives used by the module *)

Module Py.

(** [s[1:]] *)
Definition drop1 (s : string) : string :=
  match s with
  | EmptyString => EmptyString
  | String _ t => t
  end.

(** [s[lo:-1]]: the characters from index [lo] up to, not including, the
    last one; empty when the string is too short. *)
Definition slice_to_last (lo : nat) (s : string) : string :=
  substring lo (String.length s - 1 - lo) s.

(** [s.startswith(p)] *)
Definition startswith (s p : string) : bool := String.prefix p s.

(** [s.endswith(p)]: [p] is [s] itself or ends the tail of [s]. *)
Fixpoint endswith (s p : string) : bool :=
  String.eqb s p ||
  match s with
  | EmptyString => false
  | String _ t => endswith t p
  end.

(** [l[-1]] on a non-empty list. *)
Definition last_item {A} (l : list A) : option A := last l.

(** Truthiness of a str-or-None value: [None] and [""] are false. *)
Definition truthy_str (o : option string) : bool :=
  match o with
  | Some (String _ _) => true
  | _ => false
  end.

(** Truthiness of an int-or-None value: [None] and [0] are false. *)
Definition truthy_int (o : option Z) : bool :=
  match o with
  | Some z => negb (z =? 0)
  | None => false
  end.

(** Truthiness of a list-or-None value: [None] and [[]] are false. *)
Definition truthy_list {A} (o : option (list A)) : bool :=
  match o with
  | Some (_ :: _) => true
  | _ => false
  end.

(** ["%i" % n] *)
Definition fmt_i (n : Z) : string := NilEmpty.string_of_int (Z.to_int n).

(** [int(s)] for a literal made of decimal digits; [None] stands for the
    ValueError Python raises on any other character. *)
Definition int (s : string) : option Z :=
  match s with
  | EmptyString => None
  | _ => option_map Z.of_uint (NilEmpty.uint_of_string s)
  end.

(** [max(0, x)] where [x] is an int or [None].  Python 2 orders [None]
    below every number, so [max(0, None)] is [0]. *)
Definition max0 (x : option Z) : Z :=
  match x with
  | None => 0
  | Some z => Z.max 0 z
  end.

End Py.

(** ** A backtracking matcher for the fragment of [re] the module uses *)

Module Re.

(** Single-character classes. *)
Inductive cclass :=
| Digit      (* [0-9] *)
| AnyChar    (* .   : anything but a newline *)
| NonSpace   (* \S  *)
| Lit (c : ascii).

Definition is_digit (c : ascii) : bool :=
  let n := nat_of_ascii c in ((48 <=? n) && (n <=? 57))%nat.

(** Whitespace of a byte pattern without flags: space, \t, \n, \v, \f, \r. *)
Definition is_space (c : ascii) : bool :=
  let n := nat_of_ascii c in ((n =? 32) || ((9 <=? n) && (n <=? 13)))%nat.

Definition newline : ascii := ascii_of_nat 10.

Definition accepts (cl : cclass) (c : ascii) : bool :=
  match cl with
  | Digit => is_digit c
  | AnyChar => negb (Ascii.eqb c newline)
  | NonSpace => negb (is_space c)
  | Lit d => Ascii.eqb c d
  end.

(** Every character of [s] is in the class. *)
Fixpoint all_in (cl : cclass) (s : string) : bool :=
  match s with
  | EmptyString => true
  | String c t => accepts cl c && all_in cl t
  end.

(** [s] does not go on with a character of the class. *)
Definition stops (cl : cclass) (s : string) : bool :=
  match s with
  | EmptyString => true
  | String c _ => negb (accepts cl c)
  end.

Inductive regex :=
| Bos                          (* ^ *)
| Eos                          (* $ *)
| One (cl : cclass)            (* a single character of the class *)
| Plus (cl : cclass)           (* cl+, greedy *)
| Star (cl : cclass)           (* cl*, greedy *)
| Cat (r1 r2 : regex)
| Opt (r : regex)              (* r?, greedy *)
| Grp (n : nat) (r : regex).   (* the n-th capturing group, n >= 1 *)

(** [m.groups()]: one entry per group, [None] for a group that took no
    part in the match. *)
Definition groups := list (option string).

(** What remains to be matched after a sub-pattern: position, rest of the
    subject, captures so far. *)
Definition cont := nat -> string -> groups -> option groups.

(** Greedy repetition of a class: take as many characters as possible and
    give them back one at a time while the rest of the pattern fails. *)
Fixpoint rep (cl : cclass) (k : nat -> string -> option groups)
         (pos : nat) (s : string) : option groups :=
  match s with
  | String c t =>
      if accepts cl c then
        match rep cl k (S pos) t with
        | Some g => Some g
        | None => k pos s
        end
      else k pos s
  | EmptyString => k pos s
  end.

Fixpoint run (r : regex) (pos : nat) (s : string) (g : groups) (k : cont)
  : option groups :=
  match r with
  | Bos => if (pos =? 0)%nat then k pos s g else None
  | Eos =>
      (* end of the subject, or just before a final newline *)
      match s with
      | EmptyString => k pos s g
      | String c EmptyString => if Ascii.eqb c newline then k pos s g else None
      | _ => None
      end
  | One cl =>
      match s with
      | String c t => if accepts cl c then k (S pos) t g else None
      | EmptyString => None
      end
  | Plus cl =>
      match s with
      | String c t =>
          if accepts cl c then rep cl (fun p u => k p u g) (S pos) t else None
      | EmptyString => None
      end
  | Star cl => rep cl (fun p u => k p u g) pos s
  | Cat r1 r2 => run r1 pos s g (fun p u g' => run r2 p u g' k)
  | Opt r1 =>
      match run r1 pos s g k with
      | Some g' => Some g'
      | None => k pos s g
      end
  | Grp n r1 =>
      run r1 pos s g
          (fun p u g' => k p u (<[pred n := Some (substring 0 (p - pos) s)]> g'))
  end.

(** [re.match(r, s)] for a pattern with [n] groups, returning
    [m.groups()] or [None]. *)
Definition match_groups (n : nat) (r : regex) (s : string) : option groups :=
  run r 0 s (replicate n None) (fun _ _ g => Some g).

End Re.

(** ** Exceptions *)

Inductive exn :=
| ValueError (msg : string)
| IOError (msg : string)
| OSError (msg : string)
| KeyError (key : string).

Inductive result (A : Type) :=
| Ok (a : A)
| Raise (e : exn).
Arguments Ok {A} a.
Arguments Raise {A} e.

(** [str(exc)]: the message an exception carries; [IOError(exc)] wraps it. *)
Definition exn_msg (e : exn) : string :=
  match e with
  | ValueError m | IOError m | OSError m | KeyError m => m
  end.

(** ** class Version *)

Record Version := mkVersion {
  major : Z;
  minor : Z;
  micro : Z;
  patch : option Z;        (* None if undefined *)
  status : option string;  (* None if undefined *)
}.

(** The values a Version may be compared with: another Version, a plain
    value ([None], a number, a string), or an instance of some other class.
    Such an instance is given by what its own [__eq__] answers when asked
    about a Version: [Some b], or [None] when the class defines no [__eq__]
    or the method returns NotImplemented.  The class is taken to define no
    other comparison method. *)
Inductive pyobj :=
| PyNone
| PyInt (z : Z)
| PyStr (s : string)
| PyVersion (v : Version)
| PyObject (__eq__ : Version -> option bool).


Infix "⋅" := Re.Cat (at level 60, right associativity).

(** The pattern of [__init__]: three groups [0-9]+ separated by a dot, an
    optional fourth group made of a dot and [0-9]+, an optional fifth group
    made of a dash and any run of \S (possibly empty), then $.  The dots are
    written unescaped in the source, so each stands for any character but a
    newline. *)
Definition version_re : Re.regex :=
  Re.Bos ⋅
  Re.Grp 1 (Re.Plus Re.Digit) ⋅ Re.One Re.AnyChar ⋅
  Re.Grp 2 (Re.Plus Re.Digit) ⋅ Re.One Re.AnyChar ⋅
  Re.Grp 3 (Re.Plus Re.Digit) ⋅
  Re.Opt (Re.Grp 4 (Re.One Re.AnyChar ⋅ Re.Plus Re.Digit)) ⋅
  Re.Opt (Re.Grp 5 (Re.One (Re.Lit "-") ⋅ Re.Star Re.NonSpace)) ⋅
  Re.Eos.

(** The grammar the specification gives for a well-formed string:
    "^\d+\.\d+\.\d+(\.\d+)?(-\S+)?$", with literal dots and a non-empty
    status. *)
Definition spec_version_re : Re.regex :=
  Re.Bos ⋅
  Re.Grp 1 (Re.Plus Re.Digit) ⋅ Re.One (Re.Lit ".") ⋅
  Re.Grp 2 (Re.Plus Re.Digit) ⋅ Re.One (Re.Lit ".") ⋅
  Re.Grp 3 (Re.Plus Re.Digit) ⋅
  Re.Opt (Re.Grp 4 (Re.One (Re.Lit ".") ⋅ Re.Plus Re.Digit)) ⋅
  Re.Opt (Re.Grp 5 (Re.One (Re.Lit "-") ⋅ Re.Plus Re.NonSpace)) ⋅
  Re.Eos.

Definition spec_well_formed (s : string) : bool :=
  match Re.match_groups 5 spec_version_re s with
  | Some _ => true
  | None => false
  end.

Definition malformed (version_str : string) : exn :=
  ValueError ("'" +:+ version_str +:+ "' isn't a properly formatted tor version").

Definition invalid_literal (s : string) : exn :=
  ValueError ("invalid literal for int() with base 10: '" +:+ s +:+ "'").

(** [int(s)], raising as Python does. *)
Definition int_or_raise (s : string) : result Z :=
  match Py.int s with
  | Some z => Ok z
  | None => Raise (invalid_literal s)
  end.

Definition bind {A B} (m : result A) (f : A -> result B) : result B :=
  match m with
  | Ok a => f a
  | Raise e => Raise e
  end.

Notation "'let!' x ':=' m 'in' k" := (bind m (fun x => k))
  (at level 10, x name, m at level 100, k at level 200).

(** [Version.__init__] *)
Definition __init__ (version_str : string) : result Version :=
  match Re.match_groups 5 version_re version_str with
  | Some [major; minor; micro; patch; status] =>
      (* if patch: patch = int(patch[1:]) *)
      let! patch := (if Py.truthy_str patch
                     then let! z := int_or_raise (Py.drop1 (default "" patch)) in
                          Ok (Some z)
                     else Ok None) in
      (* if status: status = status[1:] *)
      let status := if Py.truthy_str status
                    then Some (Py.drop1 (default "" status)) else status in
      let! major := int_or_raise (default "" major) in
      let! minor := int_or_raise (default "" minor) in
      let! micro := int_or_raise (default "" micro) in
      Ok (mkVersion major minor micro patch status)
  | _ => Raise (malformed version_str)
  end.

(** [Version.__str__] *)
Definition __str__ (self : Version) : string :=
  let suffix := "" in
  let suffix := if Py.truthy_int (patch self)
                then suffix +:+ "." +:+ Py.fmt_i (default 0 (patch self))
                else suffix in
  let suffix := if Py.truthy_str (status self)
                then suffix +:+ "-" +:+ default "" (status self)
                else suffix in
  Py.fmt_i (major self) +:+ "." +:+ Py.fmt_i (minor self) +:+ "." +:+
  Py.fmt_i (micro self) +:+ suffix.

(** The attributes [__cmp__] walks over, and [self.__dict__[attr]]. *)
Inductive attr := a_major | a_minor | a_micro | a_patch.

Definition getattr (v : Version) (a : attr) : option Z :=
  match a with
  | a_major => Some (major v)
  | a_minor => Some (minor v)
  | a_micro => Some (micro v)
  | a_patch => patch v
  end.

(** The [for attr in ...] loop of [__cmp__]; falling out of it returns 0. *)
Fixpoint cmp_attrs (attrs : list attr) (self other : Version) : Z :=
  match attrs with
  | [] => 0
  | a :: rest =>
      let my_version := Py.max0 (getattr self a) in
      let other_version := Py.max0 (getattr other a) in
      if my_version >? other_version then 1
      else if my_version <? other_version then -1
      else cmp_attrs rest self other
  end.

(** [Version.__cmp__] *)
Definition __cmp__ (self : Version) (other : pyobj) : Z :=
  match other with
  | PyVersion other => cmp_attrs [a_major; a_minor; a_micro; a_patch] self other
  | _ => 1 (* this is also used for equality checks *)
  end.



(** [self >= other] and [self > other]: none of the values modelled has an
    ordering method of its own, so Python 2 derives both from [__cmp__]. *)
Definition py_ge (self : Version) (other : pyobj) : bool := __cmp__ self other >=? 0.
Definition py_gt (self : Version) (other : pyobj) : bool := __cmp__ self other >? 0.

(** ** The ordering the specification describes

    The 4-tuple [(major, minor, micro, patch-or-0)] with the [max(0, value)]
    floor on each component, compared left to right. *)

Definition spec_key (v : Version) : list Z :=
  [Z.max 0 (major v); Z.max 0 (minor v); Z.max 0 (micro v);
   Z.max 0 (default 0 (patch v))].

(** The first differing component decides: -1 for less, 1 for greater,
    0 when none differs. *)
Fixpoint spec_lex (xs ys : list Z) : Z :=
  match xs, ys with
  | x :: xs', y :: ys' =>
      if x <? y then -1 else if y <? x then 1 else spec_lex xs' ys'
  | _, _ => 0
  end.

(** ** Requirement

    [stem.util.enum.Enum] binds each name to the Version built from the
    literal next to it. *)

Inductive Requirement := GETINFO_CONFIG_TEXT | CONTROL_SOCKET.

Definition Requirement_literal (r : Requirement) : string :=
  match r with
  | GETINFO_CONFIG_TEXT => "0.2.2.7-alpha"
  | CONTROL_SOCKET => "0.2.0.30"
  end.

(** The value of [Version(literal)] for each entry (see [Requirement_built]). *)
Definition minimumVersion (r : Requirement) : Version :=
  match r with
  | GETINFO_CONFIG_TEXT => mkVersion 0 2 2 (Some 7) (Some "alpha")
  | CONTROL_SOCKET => mkVersion 0 2 0 (Some 30) None
  end.

(** Modelled from the spec: [isSupported(feature, currentVersion)], which the
    module does not define (callers write [version >= Requirement.X]); true
    iff [compare(currentVersion, minimumVersion)] is not less. *)
Definition isSupported (feature : Requirement) (currentVersion : Version) : bool :=
  negb (__cmp__ currentVersion (PyVersion (minimumVersion feature)) =? -1).

(** [isSupported] for a version given by its string. *)
Definition isSupported_str (feature : Requirement) (s : string) : result bool :=
  let! v := __init__ s in Ok (isSupported feature v).

(** ** get_system_tor_version and its cache *)

(** The process state the function touches: the module-level cache, and a
    log of the commands handed to [stem.util.system.call]. *)
Record world := mkWorld {
  VERSION_CACHE : gmap string Version;
  calls : list string;
}.

(** What [stem.util.system.call] does with a command: raise OSError, or
    return the lines of output (possibly [None]). *)
Inductive call_outcome :=
| CallRaises (msg : string)
| CallReturns (lines : option (list string)).

Section Discovery.

(** [stem.util.system.call], which is outside this module. *)
Variable system_call : string -> call_outcome.

Definition log_call (cmd : string) (w : world) : world :=
  mkWorld (VERSION_CACHE w) (calls w ++ [cmd]).

Definition cache_store (k : string) (v : Version) (w : world) : world :=
  mkWorld (<[k := v]> (VERSION_CACHE w)) (calls w).

(** The body of [if not tor_cmd in VERSION_CACHE: ...] *)
Definition query_tor (tor_cmd : string) (w : world) : result unit * world :=
  let version_cmd := tor_cmd +:+ " --version" in
  let w := log_call version_cmd w in
  match system_call version_cmd with
  | CallRaises msg => (Raise (IOError msg), w)
  | CallReturns version_output =>
      if Py.truthy_list version_output then
        match Py.last_item (default [] version_output) with
        | Some last_line =>
            if Py.startswith last_line "Tor version " && Py.endswith last_line "."
            then
              let version_str := Py.slice_to_last 12 last_line in
              match __init__ version_str with
              | Ok v => (Ok tt, cache_store tor_cmd v w)
              | Raise (ValueError msg) => (Raise (IOError msg), w)
              | Raise e => (Raise e, w)
              end
            else
              (Raise (IOError ("Unexpected response from '" +:+ version_cmd +:+
                               "': " +:+ last_line)), w)
        | None => (Raise (IOError ("'" +:+ version_cmd +:+ "' didn't have any output")), w)
        end
      else (Raise (IOError ("'" +:+ version_cmd +:+ "' didn't have any output")), w)
  end.

(** [return VERSION_CACHE[tor_cmd]] *)
Definition cache_get (tor_cmd : string) (w : world) : result Version * world :=
  match VERSION_CACHE w !! tor_cmd with
  | Some v => (Ok v, w)
  | None => (Raise (KeyError tor_cmd), w)
  end.

Definition get_system_tor_version (tor_cmd : string) (w : world)
  : result Version * world :=
  match VERSION_CACHE w !! tor_cmd with
  | None =>
      match query_tor tor_cmd w with
      | (Ok _, w') => cache_get tor_cmd w'
      | (Raise e, w') => (Raise e, w')
      end
  | Some _ => cache_get tor_cmd w
  end.

End Discovery.

(** The one output shape the function accepts: the last line of the output
    is "Tor version <version>." and <version> is a version [__init__]
    accepts. *)
Definition recognized (out : call_outcome) (v : Version) : Prop :=
  exists lines version_str,
    out = CallReturns (Some lines) /\
    last lines = Some ("Tor version " +:+ version_str +:+ ".") /\
    __init__ version_str = Ok v.

(** The first line of the output sample quoted in the source. *)
Definition notice_line : string :=
  "Oct 21 07:19:27.438 [notice] Tor v0.2.1.30. This is experimental software. Do not rely on it for strong anonymity. (Running on Linux i686)".

(** ** stem.descriptor.remote.Query *)

Module Remote.

(** Modelled from the spec: the descriptor kinds of a Query (the module
    [stem.descriptor.remote] is not part of the sources at hand). *)
Inductive descriptor_kind := server_descriptor | extra_info_descriptor | consensus.

(** Modelled from the spec: an endpoint is an (address, port) pair. *)
Definition endpoint : Type := string * Z.

(** Modelled from the spec: the run state of a Query. *)
Inductive run_state := not_started | in_progress | succeeded | failed.

(** Modelled from the spec: the per-endpoint failure reasons. *)
Inductive cause :=
| EndpointUnreachable (e : endpoint)
| MalformedDescriptorPayload (e : endpoint).

(** Modelled from the spec: the only error [run()] surfaces. *)
Inductive terminal_error :=
| AllEndpointsExhausted (causes : list cause).

(** Modelled from the spec: the inputs of a Query. *)
Record Query := mkQuery {
  resource : string;
  kind : descriptor_kind;
  endpoints : list endpoint;
  timeout : Z;
  compressed : bool;
}.

Section Run.

Variables bytes record : Type.

(** The collaborators: transport ([None] on timeout or transport-level
    failure), decompression and the descriptor parser ([None] on a
    malformed payload). *)
Variable request : endpoint -> string -> Z -> option bytes.
Variable decompress : bytes -> bytes.
Variable parser : descriptor_kind -> bytes -> option (list record).

(** Modelled from the spec: one attempt against one endpoint: issue the
    request with the configured timeout; on a response decompress if
    indicated and hand the bytes and the kind to the parser. *)
Definition attempt (q : Query) (e : endpoint) : cause + list record :=
  match request e (resource q) (timeout q) with
  | None => inl (EndpointUnreachable e)
  | Some raw =>
      let raw := if compressed q then decompress raw else raw in
      match parser (kind q) raw with
      | None => inl (MalformedDescriptorPayload e)
      | Some records => inr records
      end
  end.

(** Modelled from the spec: an endpoint fails when its attempt ends in a
    failure cause rather than in records. *)
Definition fails (q : Query) (e : endpoint) : bool :=
  match attempt q e with
  | inl _ => true
  | inr _ => false
  end.

(** Modelled from the spec: the ordered-attempt loop: a failure is
    recorded and the next endpoint is tried; the first structurally
    valid response ends the loop. *)
Fixpoint try_endpoints (q : Query) (todo : list endpoint) (causes : list cause)
  : list cause + list record :=
  match todo with
  | [] => inl causes
  | e :: rest =>
      match attempt q e with
      | inl c => try_endpoints q rest (causes ++ [c])
      | inr records => inr records
      end
  end.

(** Modelled from the spec: [run()], with the state the Query ends in. *)
Definition run (q : Query) : run_state * (terminal_error + list record) :=
  match try_endpoints q (endpoints q) [] with
  | inl causes => (failed, inl (AllEndpointsExhausted causes))
  | inr records => (succeeded, inr records)
  end.

End Run.

End Remote.

(** ** The strings [__init__] accepts, part by part

    What the pattern of [__init__] can match: a run of digits, one
    separator, a run of digits, one separator, a run of digits, then
    optionally a separator with a run of digits, optionally a dash with a
    run of non-space characters, optionally one final newline. *)

Record parts := mkParts {
  p_major : string;
  p_sep1 : ascii;
  p_minor : string;
  p_sep2 : ascii;
  p_micro : string;
  p_patch : option (ascii * string);  (* separator and digits *)
  p_status : option string;           (* the text after the dash *)
  p_newline : bool;                   (* a final newline *)
}.

(** The text of the optional fourth and fifth groups. *)
Definition patch_text (o : option (ascii * string)) : string :=
  match o with
  | Some (c, d) => String c d
  | None => EmptyString
  end.

Definition status_text (o : option string) : string :=
  match o with
  | Some st => String "-" st
  | None => EmptyString
  end.

Definition newline_text (b : bool) : string :=
  if b then String Re.newline EmptyString else EmptyString.

Definition tail_string (pa : option (ascii * string)) (st : option string)
           (nl : bool) : string :=
  patch_text pa +:+ status_text st +:+ newline_text nl.

Definition parts_string (p : parts) : string :=
  p_major p +:+ String (p_sep1 p)
    (p_minor p +:+ String (p_sep2 p)
       (p_micro p +:+ tail_string (p_patch p) (p_status p) (p_newline p))).

(** A non-empty run of digits. *)
Definition digits (s : string) : bool :=
  match s with
  | EmptyString => false
  | String _ _ => Re.all_in Re.Digit s
  end.

Definition patch_ok (o : option (ascii * string)) : bool :=
  match o with
  | Some (c, d) => Re.accepts Re.AnyChar c && digits d
  | None => true
  end.

Definition status_ok (o : option string) : bool :=
  match o with
  | Some st => Re.all_in Re.NonSpace st
  | None => true
  end.

Definition parts_ok (p : parts) : bool :=
  digits (p_major p) && Re.accepts Re.AnyChar (p_sep1 p) &&
  digits (p_minor p) && Re.accepts Re.AnyChar (p_sep2 p) &&
  digits (p_micro p) && patch_ok (p_patch p) && status_ok (p_status p).

(** What [m.groups()] is for a match that splits the string into [p]. *)
Definition parts_groups (p : parts) : Re.groups :=
  [Some (p_major p); Some (p_minor p); Some (p_micro p);
   option_map (fun cd => String (fst cd) (snd cd)) (p_patch p);
   option_map (String "-") (p_status p)].

(** The Version [__init__] builds from the parts. *)
Definition parts_version (p : parts) : option Version :=
  match Py.int (p_major p), Py.int (p_minor p), Py.int (p_micro p) with
  | Some a, Some b, Some c =>
      match p_patch p with
      | Some (_, d) =>
          match Py.int d with
          | Some z => Some (mkVersion a b c (Some z) (p_status p))
          | None => None
          end
      | None => Some (mkVersion a b c None (p_status p))
      end
  | _, _, _ => None
  end.

(** The end of the pattern, after the third group. *)
Definition version_tail_re : Re.regex :=
  Re.Opt (Re.Grp 4 (Re.One Re.AnyChar ⋅ Re.Plus Re.Digit)) ⋅
  Re.Opt (Re.Grp 5 (Re.One (Re.Lit "-") ⋅ Re.Star Re.NonSpace)) ⋅
  Re.Eos.

(** Versions that [__str__] renders to a string [__init__] reads back:
    numbers are not negative, a patch is not 0, a status is a non-empty run
    of non-space characters, and a status that follows the micro number
    directly does not begin with a digit. *)
Definition starts_with_digit (s : string) : bool :=
  match s with
  | String c _ => Re.is_digit c
  | EmptyString => false
  end.

Definition renders_faithfully (v : Version) : bool :=
  (0 <=? major v) && (0 <=? minor v) && (0 <=? micro v) &&
  match patch v with
  | Some z => 0 <? z
  | None => true
  end &&
  match status v with
  | Some st =>
      negb (String.eqb st "") && Re.all_in Re.NonSpace st &&
      match patch v with
      | Some _ => true
      | None => negb (starts_with_digit st)
      end
  | None => true
  end.

(** Parts that can be read in one way only: no separator is a digit (a
    digit would be taken by the run before it), and a status that follows
    the micro number directly does not begin with a digit (which the
    fourth group would take as a patch after the dash). *)
Definition unambiguous (p : parts) : bool :=
  negb (Re.is_digit (p_sep1 p)) && negb (Re.is_digit (p_sep2 p)) &&
  match p_patch p with
  | Some (c, _) => negb (Re.is_digit c)
  | None =>
      match p_status p with
      | Some st => negb (starts_with_digit st)
      | None => true
      end
  end.

(** The parts [__str__] writes for a Version. *)
Definition version_parts (v : Version) : parts :=
  mkParts (Py.fmt_i (major v)) "." (Py.fmt_i (minor v)) "." (Py.fmt_i (micro v))
          (if Py.truthy_int (patch v)
           then Some ("."%char, Py.fmt_i (default 0 (patch v))) else None)
          (if Py.truthy_str (status v) then status v else None)
          false.

(** The numbers of a Version as they are, without the floor. *)
Definition raw_key (v : Version) : list Z :=
  [major v; minor v; micro v; default 0 (patch v)].

(** * Properties *)

(** ** Ordering *)

Section Lex.

Implicit Types xs ys zs : list Z.

Lemma spec_lex_refl xs : spec_lex xs xs = 0.
Proof.
  induction xs as [|x xs IH]; simpl; [reflexivity|].
  rewrite Z.ltb_irrefl. exact IH.
Qed.

Lemma spec_lex_cases xs ys :
  spec_lex xs ys = -1 \/ spec_lex xs ys = 0 \/ spec_lex xs ys = 1.
Proof.
  revert ys. induction xs as [|x xs IH]; intros [|y ys]; simpl; auto.
  destruct (x <? y); auto. destruct (y <? x); auto.
Qed.

Lemma spec_lex_antisym xs ys : spec_lex ys xs = - spec_lex xs ys.
Proof.
  revert ys. induction xs as [|x xs IH]; intros [|y ys]; simpl; auto.
  destruct (Z.ltb_spec x y), (Z.ltb_spec y x); try lia. apply IH.
Qed.

Lemma spec_lex_eq xs ys :
  length xs = length ys -> spec_lex xs ys = 0 -> xs = ys.
Proof.
  revert ys. induction xs as [|x xs IH]; intros [|y ys]; simpl; try discriminate; auto.
  intros Hlen. destruct (Z.ltb_spec x y); [discriminate|].
  destruct (Z.ltb_spec y x); [discriminate|].
  intros Hz. f_equal; [lia|]. apply IH; [lia | exact Hz].
Qed.

Lemma spec_lex_trans xs ys zs :
  length xs = length ys -> length ys = length zs ->
  spec_lex xs ys <> 1 -> spec_lex ys zs <> 1 -> spec_lex xs zs <> 1.
Proof.
  revert ys zs.
  induction xs as [|x xs IH]; intros [|y ys] [|z zs]; simpl; try discriminate; auto.
  intros Hxy Hyz.
  destruct (Z.ltb_spec x y), (Z.ltb_spec y x), (Z.ltb_spec y z), (Z.ltb_spec z y),
           (Z.ltb_spec x z), (Z.ltb_spec z x);
    try lia; try discriminate; try congruence.
  apply IH; lia.
Qed.

(** The first index at which the lists differ decides. *)
Lemma spec_lex_first_lt xs ys i x y :
  take i xs = take i ys -> xs !! i = Some x -> ys !! i = Some y ->
  x < y -> spec_lex xs ys = -1.
Proof.
  revert xs ys. induction i as [|i IH]; intros [|x0 xs] [|y0 ys]; simpl;
    try discriminate.
  - intros _ [= ->] [= ->] Hlt. destruct (Z.ltb_spec x y); [reflexivity | lia].
  - intros [= -> Ht] Hx Hy Hlt. rewrite Z.ltb_irrefl. eapply IH; eauto.
Qed.

Lemma spec_lex_first_gt xs ys i x y :
  take i xs = take i ys -> xs !! i = Some x -> ys !! i = Some y ->
  y < x -> spec_lex xs ys = 1.
Proof.
  intros Ht Hx Hy Hlt. rewrite (spec_lex_antisym ys xs).
  rewrite (spec_lex_first_lt ys xs i y x); auto.
Qed.

End Lex.

Lemma spec_key_length v : length (spec_key v) = 4%nat.
Proof. reflexivity. Qed.

(** The loop of [__cmp__] is the lexicographic comparison of the keys. *)
Lemma cmp_lex (a b : Version) :
  __cmp__ a (PyVersion b) = spec_lex (spec_key a) (spec_key b).
Proof.
  destruct a as [a1 a2 a3 [a4|] sa], b as [b1 b2 b3 [b4|] sb];
    unfold __cmp__, spec_key; simpl;
    rewrite !Z.gtb_ltb;
    repeat match goal with
           | |- context [?x <? ?y] => destruct (Z.ltb_spec x y); try lia
           end; reflexivity.
Qed.

Lemma cmp_range (a b : Version) :
  __cmp__ a (PyVersion b) = -1 \/ __cmp__ a (PyVersion b) = 0 \/
  __cmp__ a (PyVersion b) = 1.
Proof. rewrite cmp_lex. apply spec_lex_cases. Qed.

(** C1: [compare(a, b)] is decided component-wise, left to right, over the
    floored 4-tuple (major, minor, micro, patch-or-0): it is the
    lexicographic comparison of the two tuples, the first differing
    component decides, and equal tuples compare equal.  Status takes no
    part: versions that agree on the four numeric attributes compare equal
    whatever their status, and an absent patch compares equal to an
    explicit patch of 0. *)
Theorem cmp_componentwise (a b : Version) :
  let c := __cmp__ a (PyVersion b) in
  c = spec_lex (spec_key a) (spec_key b) /\
  (forall i x y,
      take i (spec_key a) = take i (spec_key b) ->
      spec_key a !! i = Some x -> spec_key b !! i = Some y ->
      (x < y -> c = -1) /\ (y < x -> c = 1)) /\
  (spec_key a = spec_key b -> c = 0) /\
  (major a = major b -> minor a = minor b -> micro a = micro b ->
   patch a = patch b -> c = 0) /\
  (major a = major b -> minor a = minor b -> micro a = micro b ->
   patch a = None -> patch b = Some 0 -> c = 0).
Proof.
  cbv zeta. rewrite cmp_lex. split; [reflexivity|]. split; [|split; [|split]].
  - intros i x y Ht Hx Hy. split; intros Hlt.
    + eapply spec_lex_first_lt; eauto.
    + eapply spec_lex_first_gt; eauto.
  - intros ->. apply spec_lex_refl.
  - intros H1 H2 H3 H4. unfold spec_key. rewrite H1, H2, H3, H4.
    apply spec_lex_refl.
  - intros H1 H2 H3 H4 H5. unfold spec_key. rewrite H1, H2, H3, H4, H5.
    apply spec_lex_refl.
Qed.

Lemma cmp_componentwise_witness :
  __cmp__ (mkVersion 0 2 2 (Some 23) (Some "alpha"))
          (PyVersion (mkVersion 0 2 3 None (Some "rc"))) = -1
  /\ __cmp__ (mkVersion 0 2 2 (Some 23) (Some "alpha"))
             (PyVersion (mkVersion 0 2 2 (Some 23) (Some "rc"))) = 0
  /\ __cmp__ (mkVersion 1 2 3 None None)
             (PyVersion (mkVersion 1 2 3 (Some 0) None)) = 0.
Proof.
  split; [|split].
  - apply (proj1 (proj2 (cmp_componentwise
                           (mkVersion 0 2 2 (Some 23) (Some "alpha"))
                           (mkVersion 0 2 3 None (Some "rc")))) 2%nat 2 3);
      [reflexivity | reflexivity | reflexivity | lia].
  - apply (proj1 (proj2 (proj2 (proj2 (cmp_componentwise
                           (mkVersion 0 2 2 (Some 23) (Some "alpha"))
                           (mkVersion 0 2 2 (Some 23) (Some "rc")))))));
      reflexivity.
  - apply (proj2 (proj2 (proj2 (proj2 (cmp_componentwise
                           (mkVersion 1 2 3 None None)
                           (mkVersion 1 2 3 (Some 0) None))))));
      reflexivity.
Defined.

(** [Version(a) == Version(b)] for two version strings. *)
Example status_only_difference_equal :
  (let! a := __init__ "0.2.2.23-alpha" in
   let! b := __init__ "0.2.2.23-rc" in Ok (__cmp__ a (PyVersion b))) = Ok 0.
Proof. vm_compute. reflexivity. Qed.

Example absent_patch_equals_zero_patch :
  (let! a := __init__ "1.2.3" in
   let! b := __init__ "1.2.3.0" in Ok (__cmp__ a (PyVersion b))) = Ok 0.
Proof. vm_compute. reflexivity. Qed.

(** C2: restricted to Versions, [compare] is a total order over the floored
    4-tuple: [compare(a, a)] is equal; if [compare(a, b)] is equal then
    [compare(b, a)] is equal and the two tuples coincide; and if
    [compare(a, b)] and [compare(b, c)] are both not greater then
    [compare(a, c)] is not greater.  (The result is always one of -1, 0, 1
    and swapping the arguments negates it.) *)
Theorem cmp_total_order :
  (forall a, __cmp__ a (PyVersion a) = 0) /\
  (forall a b, __cmp__ a (PyVersion b) = 0 ->
               __cmp__ b (PyVersion a) = 0 /\ spec_key a = spec_key b) /\
  (forall a b c, __cmp__ a (PyVersion b) <> 1 -> __cmp__ b (PyVersion c) <> 1 ->
                 __cmp__ a (PyVersion c) <> 1) /\
  (forall a b, __cmp__ b (PyVersion a) = - __cmp__ a (PyVersion b)) /\
  (forall a b, __cmp__ a (PyVersion b) = -1 \/ __cmp__ a (PyVersion b) = 0 \/
               __cmp__ a (PyVersion b) = 1).
Proof.
  split; [|split; [|split; [|split]]].
  - intros a. rewrite cmp_lex. apply spec_lex_refl.
  - intros a b. rewrite !cmp_lex. intros H. split.
    + rewrite spec_lex_antisym, H. reflexivity.
    + apply spec_lex_eq; [reflexivity | exact H].
  - intros a b c. rewrite !cmp_lex. apply spec_lex_trans; reflexivity.
  - intros a b. rewrite !cmp_lex. apply spec_lex_antisym.
  - intros a b. apply cmp_range.
Qed.

Lemma cmp_total_order_witness :
  (__cmp__ (mkVersion 1 2 3 (Some 0) (Some "rc")) (PyVersion (mkVersion 1 2 3 None None)) = 0
   /\ spec_key (mkVersion 1 2 3 None None) = spec_key (mkVersion 1 2 3 (Some 0) (Some "rc")))
  /\ __cmp__ (mkVersion 0 1 9 (Some 9) None) (PyVersion (mkVersion 0 2 0 (Some 31) None)) <> 1.
Proof.
  split.
  - apply (proj1 (proj2 cmp_total_order)
             (mkVersion 1 2 3 None None) (mkVersion 1 2 3 (Some 0) (Some "rc"))).
    reflexivity.
  - apply (proj1 (proj2 (proj2 cmp_total_order))
             (mkVersion 0 1 9 (Some 9) None) (mkVersion 0 2 0 (Some 30) None)
             (mkVersion 0 2 0 (Some 31) None)); discriminate.
Defined.




(** ** Requirement *)

(** Each registry entry is the Version its literal parses to. *)
Lemma Requirement_built (r : Requirement) :
  __init__ (Requirement_literal r) = Ok (minimumVersion r).
Proof. destruct r; vm_compute; reflexivity. Qed.

(** C3: for every feature of the registry and every Version,
    [isSupported] is true iff [compare(v, minimumVersion(feature))] is not
    less (which is what [v >= Requirement.feature] computes); for
    CONTROL_SOCKET, gated at 0.2.0.30, it is false for 0.1.9.9 and true
    for 0.2.0.30 and 0.2.0.31. *)
Theorem isSupported_iff :
  (forall feature v,
      (isSupported feature v = true <->
       __cmp__ v (PyVersion (minimumVersion feature)) <> -1) /\
      isSupported feature v = py_ge v (PyVersion (minimumVersion feature))) /\
  __init__ "0.2.0.30" = Ok (minimumVersion CONTROL_SOCKET) /\
  isSupported_str CONTROL_SOCKET "0.1.9.9" = Ok false /\
  isSupported_str CONTROL_SOCKET "0.2.0.30" = Ok true /\
  isSupported_str CONTROL_SOCKET "0.2.0.31" = Ok true.
Proof.
  split; [|repeat split; vm_compute; reflexivity].
  intros feature v. unfold isSupported, py_ge.
  set (m := minimumVersion feature).
  destruct (cmp_range v m) as [H|[H|H]];
    rewrite H; simpl; split; try reflexivity; split; intros; congruence.
Qed.

(** ** The matcher on runs of one class *)

Section Matcher.

Import Re.

Lemma rep_stops cl k pos s : stops cl s = true -> rep cl k pos s = k pos s.
Proof.
  destruct s as [|c t]; simpl; [reflexivity|].
  destruct (accepts cl c); [discriminate | reflexivity].
Qed.

(** A greedy repetition that can take the whole run [ds], and after which
    the rest of the pattern succeeds, takes exactly [ds]. *)
Lemma rep_takes_run cl k ds : forall pos rest G,
  all_in cl ds = true -> stops cl rest = true ->
  k (pos + String.length ds)%nat rest = Some G ->
  rep cl k pos (ds +:+ rest) = Some G.
Proof.
  induction ds as [|c t IH]; intros pos rest G Hall Hstop Hk.
  - simpl in *. rewrite Nat.add_0_r in Hk. rewrite rep_stops; assumption.
  - simpl in Hall. apply andb_true_iff in Hall as [Hc Ht].
    change (String c t +:+ rest) with (String c (t +:+ rest)).
    simpl. rewrite Hc.
    rewrite (IH (S pos) rest G); auto.
    simpl in Hk. rewrite Nat.add_succ_r in Hk. exact Hk.
Qed.

Lemma substring_prefix (ds rest : string) :
  substring 0 (String.length ds) (ds +:+ rest) = ds.
Proof.
  induction ds as [|c t IH]; simpl.
  - destruct rest; reflexivity.
  - f_equal. exact IH.
Qed.

(** A capturing group around [cl+], run on a non-empty run of the class. *)
Lemma run_group_plus n cl pos ds rest g k G :
  ds <> EmptyString -> all_in cl ds = true -> stops cl rest = true ->
  k (pos + String.length ds)%nat rest (<[pred n := Some ds]> g) = Some G ->
  run (Grp n (Plus cl)) pos (ds +:+ rest) g k = Some G.
Proof.
  intros Hne Hall Hstop Hk.
  destruct ds as [|c t]; [congruence|].
  simpl in Hall. apply andb_true_iff in Hall as [Hc Ht].
  change (String c t +:+ rest) with (String c (t +:+ rest)).
  cbn [run]. rewrite Hc.
  apply rep_takes_run; auto.
  replace (S pos + String.length t - pos)%nat with (String.length (String c t))
    by (simpl; lia).
  change (String c (t +:+ rest)) with (String c t +:+ rest).
  rewrite (substring_prefix (String c t) rest).
  simpl in Hk. rewrite Nat.add_succ_r in Hk. exact Hk.
Qed.

Lemma run_cat r1 r2 pos s g k :
  run (Cat r1 r2) pos s g k = run r1 pos s g (fun p u g' => run r2 p u g' k).
Proof. reflexivity. Qed.

Lemma append_empty_r (s : string) : s +:+ EmptyString = s.
Proof.
  induction s as [|c t IH]; [reflexivity|].
  change (String c (t +:+ EmptyString) = String c t). f_equal. exact IH.
Qed.

Lemma run_bos0 s g k : run Bos 0 s g k = k 0%nat s g.
Proof. reflexivity. Qed.

Lemma run_group_plus_end n cl pos ds g k G :
  ds <> EmptyString -> all_in cl ds = true ->
  k (pos + String.length ds)%nat EmptyString (<[pred n := Some ds]> g) = Some G ->
  run (Grp n (Plus cl)) pos ds g k = Some G.
Proof.
  intros Hne Hall Hk.
  rewrite <- (append_empty_r ds) at 1. apply run_group_plus; auto.
Qed.

Lemma run_one cl pos c t g k :
  accepts cl c = true -> run (One cl) pos (String c t) g k = k (S pos) t g.
Proof. intros H. simpl. rewrite H. reflexivity. Qed.

End Matcher.

(** ** Decimal rendering and reading *)

Lemma string_of_uint_digits (d : Decimal.uint) :
  Re.all_in Re.Digit (NilEmpty.string_of_uint d) = true.
Proof. induction d; simpl; auto. Qed.

Lemma fmt_i_digits (a : Z) :
  0 <= a -> Py.fmt_i a <> EmptyString /\ Re.all_in Re.Digit (Py.fmt_i a) = true.
Proof.
  intros Ha. unfold Py.fmt_i. destruct a as [|p|p]; [| |lia].
  - split; [discriminate | reflexivity].
  - simpl. split; [|apply string_of_uint_digits].
    pose proof (DecimalPos.Unsigned.to_uint_nonnil p) as Hnil.
    destruct (Pos.to_uint p); [congruence | discriminate ..].
Qed.

Lemma int_fmt_i (a : Z) : 0 <= a -> Py.int (Py.fmt_i a) = Some a.
Proof.
  intros Ha. destruct (fmt_i_digits a Ha) as [Hne _].
  unfold Py.int. destruct (Py.fmt_i a) eqn:E; [congruence|].
  rewrite <- E. unfold Py.fmt_i.
  destruct a as [|p|p]; [reflexivity | | lia].
  simpl. rewrite NilEmpty.usu. simpl.
  change (Z.of_uint (Pos.to_uint p)) with (Z.of_int (Z.to_int (Z.pos p))).
  rewrite DecimalZ.of_to. reflexivity.
Qed.

(** ** Parsing *)

(** The pattern on three runs of digits separated by dots: the greedy
    first try of every group succeeds, so nothing is given back. *)
Lemma match_three_runs (A B C : string) :
  A <> EmptyString -> B <> EmptyString -> C <> EmptyString ->
  Re.all_in Re.Digit A = true -> Re.all_in Re.Digit B = true ->
  Re.all_in Re.Digit C = true ->
  Re.match_groups 5 version_re (A +:+ "." +:+ B +:+ "." +:+ C)
  = Some [Some A; Some B; Some C; None; None].
Proof.
  intros HA HB HC DA DB DC.
  unfold Re.match_groups, version_re.
  rewrite run_cat, run_bos0. cbv beta.
  rewrite run_cat. apply run_group_plus; [assumption | assumption | reflexivity |].
  cbv beta. rewrite run_cat.
  change ("." +:+ B +:+ "." +:+ C) with (String "." (B +:+ "." +:+ C)).
  rewrite run_one by reflexivity.
  rewrite run_cat. apply run_group_plus; [assumption | assumption | reflexivity |].
  cbv beta. rewrite run_cat.
  change ("." +:+ C) with (String "." C).
  rewrite run_one by reflexivity.
  rewrite run_cat. apply run_group_plus_end; [assumption | assumption |].
  reflexivity.
Qed.

(** C6, as the code has it: for all integers a, b, c >= 0, the string
    x = a.b.c in which each number is written in decimal without leading
    zeros (no patch, no status) is parsed successfully, to the Version with
    these three numbers and neither patch nor status, and rendering that
    Version gives x back. *)
Theorem init_str_roundtrip (a b c : Z) :
  0 <= a -> 0 <= b -> 0 <= c ->
  let x := Py.fmt_i a +:+ "." +:+ Py.fmt_i b +:+ "." +:+ Py.fmt_i c in
  __init__ x = Ok (mkVersion a b c None None) /\
  (forall v, __init__ x = Ok v -> __str__ v = x).
Proof.
  intros Ha Hb Hc x.
  destruct (fmt_i_digits a Ha) as [NA DA].
  destruct (fmt_i_digits b Hb) as [NB DB].
  destruct (fmt_i_digits c Hc) as [NC DC].
  assert (E : __init__ x = Ok (mkVersion a b c None None)).
  { unfold __init__, x. rewrite match_three_runs by assumption.
    cbn [Py.truthy_str bind default]. unfold int_or_raise, id.
    rewrite !int_fmt_i by assumption. reflexivity. }
  split; [exact E|].
  intros v Hv. rewrite E in Hv. injection Hv as <-.
  unfold __str__, x. cbn [patch status major minor micro Py.truthy_int Py.truthy_str].
  f_equal. f_equal. f_equal. f_equal.
  apply append_empty_r.
Qed.

Lemma init_str_roundtrip_witness :
  __init__ "0.2.14" = Ok (mkVersion 0 2 14 None None) /\
  (forall v, __init__ "0.2.14" = Ok v -> __str__ v = "0.2.14"%string).
Proof. apply (init_str_roundtrip 0 2 14); lia. Defined.

(** C6, as stated, fails: "007.2.3" has the form a.b.c (three runs of
    digits, no patch, no status) and is parsed, but it is not rendered
    back: the numbers are kept, not their spelling. *)
Lemma zero_padded_not_rendered_back :
  spec_well_formed "007.2.3" = true /\
  __init__ "007.2.3" = Ok (mkVersion 7 2 3 None None) /\
  ~ (exists v, __init__ "007.2.3" = Ok v /\ __str__ v = "007.2.3"%string).
Proof.
  split; [vm_compute; reflexivity|]. split; [vm_compute; reflexivity|].
  intros (v & Hv & Hs).
  assert (E : __init__ "007.2.3" = Ok (mkVersion 7 2 3 None None))
    by (vm_compute; reflexivity).
  rewrite E in Hv. injection Hv as <-. vm_compute in Hs. discriminate.
Qed.

(** A literal with leading zeros is read as the number it denotes, so it
    is rendered without them. *)
Example leading_zeros_dropped :
  __init__ "007.2.3" = Ok (mkVersion 7 2 3 None None) /\
  __str__ (mkVersion 7 2 3 None None) = "7.2.3"%string.
Proof. split; vm_compute; reflexivity. Qed.

(** C4 (the code departs from the claim): [__init__] accepts strings
    outside the grammar "^\d+\.\d+\.\d+(\.\d+)?(-\S+)?$".  The dots of its
    pattern are unescaped, so "1x2x3" is read as 1.2.3, and its status
    group may be a bare dash, so "1.2.3-" is read as 1.2.3 with an empty
    status.  "1.2" and "a.b.c" are rejected with a ValueError that names
    the string. *)
Theorem init_accepts_off_grammar :
  spec_well_formed "1x2x3" = false /\
  __init__ "1x2x3" = Ok (mkVersion 1 2 3 None None) /\
  spec_well_formed "1.2.3-" = false /\
  __init__ "1.2.3-" = Ok (mkVersion 1 2 3 None (Some "")) /\
  __init__ "1.2" = Raise (ValueError "'1.2' isn't a properly formatted tor version") /\
  __init__ "a.b.c" = Raise (ValueError "'a.b.c' isn't a properly formatted tor version").
Proof. repeat split; vm_compute; reflexivity. Qed.

(** ** Rendering *)

(** C5 (the code departs from the claim): [__str__] tests the patch by
    truth value, so a patch that is present and equal to 0 is left out:
    "1.2.3.0" parses to a Version with patch 0 and renders as "1.2.3", and
    in general a Version with patch 0 renders like the one without patch.
    (The five-component "0.2.2.23.0" is not a version string at all.) *)
Theorem str_drops_zero_patch :
  __init__ "1.2.3.0" = Ok (mkVersion 1 2 3 (Some 0) None) /\
  __str__ (mkVersion 1 2 3 (Some 0) None) = "1.2.3" /\
  (forall a b c s, __str__ (mkVersion a b c (Some 0) s) = __str__ (mkVersion a b c None s)) /\
  __init__ "0.2.2.23.0" = Raise (malformed "0.2.2.23.0").
Proof. repeat split; vm_compute; reflexivity. Qed.

(** ** The version cache *)

(** C8: for a command already in the cache, [get_system_tor_version]
    returns the stored Version and leaves the state as it was: the cache
    is unchanged and no command is handed to [stem.util.system.call]. *)
Theorem cached_without_call (system_call : string -> call_outcome)
        (tor_cmd : string) (w : world) (v : Version) :
  VERSION_CACHE w !! tor_cmd = Some v ->
  get_system_tor_version system_call tor_cmd w = (Ok v, w) /\
  calls (snd (get_system_tor_version system_call tor_cmd w)) = calls w.
Proof.
  intros Hv. unfold get_system_tor_version, cache_get. rewrite Hv. split; reflexivity.
Qed.

Lemma cached_without_call_witness :
  get_system_tor_version (fun _ => CallRaises "tor: command not found") "tor"
    (mkWorld {[ "tor" := mkVersion 0 2 1 (Some 30) None ]} [])
  = (Ok (mkVersion 0 2 1 (Some 30) None),
     mkWorld {[ "tor" := mkVersion 0 2 1 (Some 30) None ]} []) /\
  calls (snd (get_system_tor_version (fun _ => CallRaises "tor: command not found") "tor"
               (mkWorld {[ "tor" := mkVersion 0 2 1 (Some 30) None ]} []))) = [].
Proof.
  apply (cached_without_call _ "tor"
           (mkWorld {[ "tor" := mkVersion 0 2 1 (Some 30) None ]} [])).
  reflexivity.
Defined.

(** ** Discovery *)

Section Lines.

Implicit Types s t p : string.

Lemma length_append s t :
  String.length (s +:+ t) = (String.length s + String.length t)%nat.
Proof.
  induction s as [|c u IH]; [reflexivity|].
  change (S (String.length (u +:+ t)) = S (String.length u + String.length t)).
  f_equal. exact IH.
Qed.

Lemma substring_skip p n m s :
  substring (String.length p + n) m (p +:+ s) = substring n m s.
Proof. induction p as [|c u IH]; [reflexivity | exact IH]. Qed.

Lemma append_assoc s t u : (s +:+ t) +:+ u = s +:+ t +:+ u.
Proof.
  induction s as [|c v IH]; [reflexivity|].
  change (String c ((v +:+ t) +:+ u) = String c (v +:+ t +:+ u)).
  f_equal. exact IH.
Qed.

Lemma append_inj_r s t u : s +:+ u = t +:+ u -> s = t.
Proof.
  intros H.
  assert (L : String.length s = String.length t).
  { apply (f_equal String.length) in H. rewrite !length_append in H. lia. }
  revert t H L. induction s as [|c v IH]; intros [|d w] H L; try discriminate.
  - reflexivity.
  - change (String c (v +:+ u) = String d (w +:+ u)) in H.
    injection H as -> H. f_equal. apply IH; [exact H | simpl in L; lia].
Qed.

Lemma append_inj_l p s t : p +:+ s = p +:+ t -> s = t.
Proof.
  induction p as [|c u IH]; intros H; [exact H|].
  change (String c (u +:+ s) = String c (u +:+ t)) in H.
  injection H as H. apply IH, H.
Qed.

Lemma startswith_append p t : Py.startswith (p +:+ t) p = true.
Proof.
  unfold Py.startswith. induction p as [|c u IH]; simpl.
  - destruct t; reflexivity.
  - change (String c u +:+ t) with (String c (u +:+ t)). cbn [String.prefix].
    destruct (ascii_dec c c); [exact IH | congruence].
Qed.

Lemma startswith_inv p s : Py.startswith s p = true -> exists t, s = p +:+ t.
Proof.
  unfold Py.startswith. revert s. induction p as [|c u IH]; intros s H.
  - exists s. reflexivity.
  - destruct s as [|d v]; simpl in H; [discriminate|].
    destruct (ascii_dec c d) as [->|]; [|discriminate].
    destruct (IH v H) as [t ->]. exists t. reflexivity.
Qed.

Lemma endswith_refl p : Py.endswith p p = true.
Proof. destruct p; simpl; rewrite ?String.eqb_refl, ?Ascii.eqb_refl; reflexivity. Qed.

Lemma endswith_append t p : Py.endswith (t +:+ p) p = true.
Proof.
  induction t as [|c u IH]; [apply endswith_refl|].
  change (String c u +:+ p) with (String c (u +:+ p)).
  cbn [Py.endswith]. rewrite IH. apply orb_true_r.
Qed.

Lemma endswith_inv s p : Py.endswith s p = true -> exists t, s = t +:+ p.
Proof.
  induction s as [|c u IH]; cbn [Py.endswith]; intros H.
  - rewrite orb_false_r in H. apply String.eqb_eq in H as <-.
    exists EmptyString. reflexivity.
  - apply orb_true_iff in H as [H|H].
    + apply String.eqb_eq in H as <-. exists EmptyString. reflexivity.
    + destruct (IH H) as [t ->]. exists (String c t). reflexivity.
Qed.

(** If [p ++ t] ends with the character [c], then so does [t], unless
    [t] is empty and it is [p] that ends with it. *)
Lemma append_eq_snoc p t t' c :
  p +:+ t = t' +:+ String c EmptyString ->
  (exists vs, t = vs +:+ String c EmptyString) \/
  (t = EmptyString /\ p = t' +:+ String c EmptyString).
Proof.
  revert t'. induction p as [|a u IH]; intros t' H.
  - left. exists t'. exact H.
  - change (String a (u +:+ t) = t' +:+ String c EmptyString) in H.
    destruct t' as [|b w].
    + injection H as -> H. right.
      destruct u; [|discriminate]. change (t = EmptyString) in H.
      subst t. split; reflexivity.
    + change (String a (u +:+ t) = String b (w +:+ String c EmptyString)) in H.
      injection H as -> H. destruct (IH w H) as [Hl|[-> ->]]; [left; exact Hl|].
      right. split; reflexivity.
Qed.

(** The two tests of the version line and the slice between them. *)
Lemma version_line_shape (l : string) :
  Py.startswith l "Tor version " = true -> Py.endswith l "." = true ->
  l = "Tor version " +:+ Py.slice_to_last 12 l +:+ ".".
Proof.
  intros Hs He.
  destruct (startswith_inv _ _ Hs) as [t ->].
  destruct (endswith_inv _ _ He) as [t' Ht'].
  destruct (append_eq_snoc _ _ _ _ Ht') as [[vs ->]|[_ Hp]].
  - f_equal. f_equal. unfold Py.slice_to_last.
    rewrite !length_append.
    replace (String.length "Tor version " + (String.length vs + String.length ".")
             - 1 - 12)%nat
      with (String.length vs) by (simpl; lia).
    change (vs = substring (String.length "Tor version " + 0) (String.length vs)
                           ("Tor version " +:+ vs +:+ ".")).
    rewrite substring_skip. symmetry. apply substring_prefix.
  - exfalso.
    assert (F : Py.endswith "Tor version " "." = true)
      by (rewrite Hp; apply endswith_append).
    vm_compute in F. discriminate.
Qed.

Lemma version_line_tests (vs : string) :
  let l := "Tor version " +:+ vs +:+ "." in
  Py.startswith l "Tor version " = true /\ Py.endswith l "." = true /\
  Py.slice_to_last 12 l = vs.
Proof.
  intros l. assert (Hs : Py.startswith l "Tor version " = true)
    by apply startswith_append.
  assert (He : Py.endswith l "." = true).
  { unfold l. rewrite <- append_assoc. apply endswith_append. }
  split; [exact Hs | split; [exact He|]].
  pose proof (version_line_shape l Hs He) as E.
  unfold l in E at 1.
  apply append_inj_l, append_inj_r in E. symmetry. exact E.
Qed.

End Lines.

Lemma init_raises_ValueError (s : string) (e : exn) :
  __init__ s = Raise e -> exists m, e = ValueError m.
Proof.
  unfold __init__, malformed.
  destruct (Re.match_groups 5 version_re s) as [[|g1 [|g2 [|g3 [|g4 [|g5 [|]]]]]]|];
    try (intros [= <-]; eauto).
  unfold int_or_raise, invalid_literal, bind.
  repeat match goal with
         | |- context [Py.truthy_str ?x] => destruct (Py.truthy_str x)
         | |- context [Py.int ?x] => destruct (Py.int x)
         end;
    intros H; try discriminate; injection H as <-; eauto.
Qed.

(** C7, as the code has it: discovery recognizes one response shape only.
    For a command that is not cached, [stem.util.system.call] is invoked
    exactly once; the call returns a Version (and caches it) exactly when
    the last line of the output is "Tor version <version>." with a
    version [__init__] accepts; for every other outcome (the call
    raising, no output, a last line of any other shape, a malformed
    version) it raises IOError at once and leaves the cache as it was. *)
Theorem discovery_single_shape (system_call : string -> call_outcome)
        (tor_cmd : string) (w w' : world) (r : result Version) :
  VERSION_CACHE w !! tor_cmd = None ->
  get_system_tor_version system_call tor_cmd w = (r, w') ->
  let version_cmd := tor_cmd +:+ " --version" in
  calls w' = calls w ++ [version_cmd] /\
  ((exists v, recognized (system_call version_cmd) v /\ r = Ok v /\
              VERSION_CACHE w' = <[tor_cmd := v]> (VERSION_CACHE w)) \/
   (exists msg, r = Raise (IOError msg) /\ VERSION_CACHE w' = VERSION_CACHE w /\
                forall v, ~ recognized (system_call version_cmd) v)).
Proof.
  intros Hc Hrun version_cmd.
  unfold get_system_tor_version in Hrun. rewrite Hc in Hrun.
  unfold query_tor in Hrun. fold version_cmd in Hrun.
  destruct (system_call version_cmd) as [msg|out] eqn:Hcall.
  { injection Hrun as <- <-. split; [reflexivity|]. right. exists msg.
    repeat split. intros v (lines & vs & Hout & _). discriminate. }
  destruct (Py.truthy_list out) eqn:Hout; cycle 1.
  { injection Hrun as <- <-. split; [reflexivity|]. right. eexists.
    repeat split. intros v (lines & vs & [= ->] & Hlast & _).
    destruct lines; [discriminate Hlast | discriminate Hout]. }
  destruct out as [[|l0 lines]|]; try discriminate Hout. cbn [default] in Hrun.
  unfold id, Py.last_item in Hrun.
  destruct (last (l0 :: lines)) as [last_line|] eqn:Hlast; cycle 1.
  { injection Hrun as <- <-. split; [reflexivity|]. right. eexists.
    repeat split. intros v (lines' & vs & [= <-] & Hl & _). congruence. }
  destruct (Py.startswith last_line "Tor version " && Py.endswith last_line ".")
    eqn:Htests; cycle 1.
  { injection Hrun as <- <-. split; [reflexivity|]. right. eexists.
    repeat split. intros v (lines' & vs & [= <-] & Hl & _).
    rewrite Hlast in Hl. injection Hl as ->.
    destruct (version_line_tests vs) as (Hs & He & _).
    rewrite Hs, He in Htests. discriminate. }
  apply andb_true_iff in Htests as [Hs He].
  pose proof (version_line_shape last_line Hs He) as Hshape.
  destruct (__init__ (Py.slice_to_last 12 last_line)) as [v|e] eqn:Hinit.
  - unfold cache_get, cache_store, log_call in Hrun. cbn [VERSION_CACHE calls] in Hrun.
    rewrite lookup_insert_eq in Hrun. injection Hrun as <- <-.
    split; [reflexivity|]. left. exists v. split; [|split; reflexivity].
    exists (l0 :: lines), (Py.slice_to_last 12 last_line).
    split; [reflexivity|]. split; [|exact Hinit]. rewrite Hlast, <- Hshape. reflexivity.
  - destruct (init_raises_ValueError _ _ Hinit) as [m ->].
    injection Hrun as <- <-. split; [reflexivity|]. right. exists m.
    repeat split. intros v (lines' & vs & [= <-] & Hl & Hv).
    rewrite Hlast in Hl. injection Hl as Hl. rewrite Hshape in Hl at 1.
    apply append_inj_l, append_inj_r in Hl. congruence.
Qed.

Lemma discovery_single_shape_witness :
  calls (cache_store "tor" (mkVersion 0 2 1 (Some 30) None)
           (log_call "tor --version" (mkWorld ∅ [])))
  = [] ++ ["tor" +:+ " --version"] /\
  ((exists v,
       recognized (CallReturns (Some [notice_line; "Tor version 0.2.1.30."])) v /\
       Ok (mkVersion 0 2 1 (Some 30) None) = Ok v /\
       VERSION_CACHE (cache_store "tor" (mkVersion 0 2 1 (Some 30) None)
                        (log_call "tor --version" (mkWorld ∅ [])))
       = <["tor" := v]> ∅) \/
   (exists msg,
       Ok (mkVersion 0 2 1 (Some 30) None) = Raise (IOError msg) /\
       VERSION_CACHE (cache_store "tor" (mkVersion 0 2 1 (Some 30) None)
                        (log_call "tor --version" (mkWorld ∅ [])))
       = ∅ /\
       forall v, ~ recognized (CallReturns (Some [notice_line; "Tor version 0.2.1.30."])) v)).
Proof.
  apply (discovery_single_shape
           (fun _ => CallReturns (Some [notice_line; "Tor version 0.2.1.30."]))
           "tor" (mkWorld ∅ [])).
  - reflexivity.
  - vm_compute. reflexivity.
Defined.

(** C7, as stated, fails: an output whose last line is the status line
    "... Tor v0.2.1.30. ..." is not recognized; the call raises IOError. *)
Lemma status_line_not_recognized :
  fst (get_system_tor_version (fun _ => CallReturns (Some [notice_line]))
         "tor" (mkWorld ∅ []))
  = Raise (IOError ("Unexpected response from 'tor --version': " +:+ notice_line)).
Proof. vm_compute. reflexivity. Qed.

(** ** Query *)

Section QueryFacts.

Import Remote.

Context {bytes record : Type}.
Variable request : endpoint -> string -> Z -> option bytes.
Variable decompress : bytes -> bytes.
Variable parser : descriptor_kind -> bytes -> option (list record).

Local Abbreviation attempt := (Remote.attempt bytes record request decompress parser).
Local Abbreviation fails := (Remote.fails bytes record request decompress parser).
Local Abbreviation try_endpoints := (Remote.try_endpoints bytes record request decompress parser).
Local Abbreviation run := (Remote.run bytes record request decompress parser).

(** When every remaining endpoint fails, the loop ends with the causes
    gathered so far followed by one cause per remaining endpoint. *)
Lemma try_endpoints_all_fail (q : Query) (todo : list endpoint) :
  forall causes,
    forallb (fails q) todo = true ->
    exists more,
      try_endpoints q todo causes = inl (causes ++ more) /\
      Forall2 (fun e c => attempt q e = inl c) todo more.
Proof.
  induction todo as [|e rest IH]; intros causes Hall.
  - exists []. rewrite app_nil_r. split; [reflexivity | constructor].
  - simpl in Hall. apply andb_true_iff in Hall as [He Hrest].
    unfold Remote.fails in He. simpl.
    destruct (attempt q e) as [c|records] eqn:Hatt; [|discriminate].
    destruct (IH (causes ++ [c]) Hrest) as (more & Hrun & Hmore).
    exists (c :: more). split.
    + rewrite Hrun, <- app_assoc. reflexivity.
    + constructor; assumption.
Qed.

(** C9: when every candidate endpoint of a Query fails, [run()] ends in
    the failed state with AllEndpointsExhausted, carrying one cause per
    endpoint tried, in order: as many causes as endpoints, and none
    missing as long as the Query has an endpoint at all.  No cause
    reaches the caller otherwise. *)
Theorem run_all_endpoints_fail (q : Query) :
  endpoints q <> [] ->
  forallb (fails q) (endpoints q) = true ->
  exists causes,
    run q = (failed, inl (AllEndpointsExhausted causes)) /\
    length causes = length (endpoints q) /\
    causes <> [] /\
    Forall2 (fun e c => attempt q e = inl c) (endpoints q) causes.
Proof.
  intros Hne Hall.
  destruct (try_endpoints_all_fail q (endpoints q) [] Hall) as (causes & Hrun & Hc).
  exists causes. unfold Remote.run. rewrite Hrun. simpl.
  pose proof (Forall2_length _ _ _ Hc) as Hlen.
  repeat split; auto.
  intros ->. destruct (endpoints q); [congruence | discriminate].
Qed.

End QueryFacts.

Lemma run_all_endpoints_fail_witness :
  let q := Remote.mkQuery "/tor/server/fp/9695DFC35FFEB861329B9F1AB04C46397020CE31"
             Remote.server_descriptor
             [("128.31.0.39", 9131); ("86.59.21.38", 80)] 30 false in
  let request : Remote.endpoint -> string -> Z -> option string :=
    fun e _ _ => if snd e =? 80 then Some "garbage" else None in
  let parser : Remote.descriptor_kind -> string -> option (list string) :=
    fun _ _ => None in
  exists causes,
    Remote.run string string request id parser q
    = (Remote.failed, inl (Remote.AllEndpointsExhausted causes)) /\
    length causes = length (Remote.endpoints q) /\
    causes <> [] /\
    Forall2 (fun e c => Remote.attempt string string request id parser q e = inl c)
            (Remote.endpoints q) causes.
Proof.
  cbv zeta. apply run_all_endpoints_fail; [discriminate | reflexivity].
Defined.


(** ** What the pattern matches *)

Section Inversion.

Import Re.

(** A repetition that succeeds took some run of the class and then the
    rest of the pattern succeeded. *)
Lemma rep_inv cl k s : forall pos G,
  rep cl k pos s = Some G ->
  exists ds rest,
    s = ds +:+ rest /\ all_in cl ds = true /\
    k (pos + String.length ds)%nat rest = Some G.
Proof.
  induction s as [|c t IH]; intros pos G H.
  - exists EmptyString, EmptyString. rewrite Nat.add_0_r. auto.
  - cbn [rep] in H. destruct (accepts cl c) eqn:Hc.
    + destruct (rep cl k (S pos) t) as [g|] eqn:Hr.
      * injection H as ->. destruct (IH _ _ Hr) as (ds & rest & -> & Hall & Hk).
        exists (String c ds), rest. split; [reflexivity|]. split.
        -- cbn [all_in]. rewrite Hc, Hall. reflexivity.
        -- cbn [String.length]. rewrite Nat.add_succ_r. exact Hk.
      * exists EmptyString, (String c t). rewrite Nat.add_0_r. auto.
    + exists EmptyString, (String c t). rewrite Nat.add_0_r. auto.
Qed.

(** If the rest of the pattern succeeds after some run of the class, the
    repetition succeeds (perhaps on a longer run). *)
Lemma rep_complete cl k ds : forall pos rest,
  all_in cl ds = true ->
  is_Some (k (pos + String.length ds)%nat rest) ->
  is_Some (rep cl k pos (ds +:+ rest)).
Proof.
  induction ds as [|c t IH]; intros pos rest Hall Hk.
  - cbn [String.length] in Hk. rewrite Nat.add_0_r in Hk.
    change (EmptyString +:+ rest) with rest.
    destruct rest as [|c t]; [exact Hk|]. cbn [rep].
    destruct (accepts cl c); [|exact Hk].
    destruct (rep cl k (S pos) t); [eauto | exact Hk].
  - cbn [all_in] in Hall. apply andb_true_iff in Hall as [Hc Ht].
    change (String c t +:+ rest) with (String c (t +:+ rest)).
    cbn [rep]. rewrite Hc.
    cbn [String.length] in Hk. rewrite Nat.add_succ_r in Hk.
    destruct (IH (S pos) rest Ht Hk) as [g ->]. eauto.
Qed.

Lemma run_one_inv cl pos s g k G :
  run (One cl) pos s g k = Some G ->
  exists c t, s = String c t /\ accepts cl c = true /\ k (S pos) t g = Some G.
Proof.
  cbn [run]. destruct s as [|c t]; [discriminate|].
  destruct (accepts cl c) eqn:Hc; [|discriminate]. eauto.
Qed.

Lemma run_opt_inv r pos s g k G :
  run (Opt r) pos s g k = Some G ->
  run r pos s g k = Some G \/ k pos s g = Some G.
Proof.
  cbn [run]. destruct (run r pos s g k); [left | right]; assumption.
Qed.

Lemma run_eos_inv pos s g k G :
  run Eos pos s g k = Some G ->
  exists nl, s = newline_text nl /\ k pos s g = Some G.
Proof.
  cbn [run]. destruct s as [|c [|d t]]; try discriminate.
  - exists false. auto.
  - destruct (Ascii.eqb_spec c newline) as [->|]; [|discriminate].
    exists true. auto.
Qed.

Lemma capture_length (pos n : nat) (ds rest : string) :
  n = String.length ds ->
  substring 0 (pos + n - pos) (ds +:+ rest) = ds.
Proof.
  intros ->. replace (pos + String.length ds - pos)%nat with (String.length ds) by lia.
  apply substring_prefix.
Qed.

Lemma run_group_plus_inv n cl pos s g k G :
  run (Grp n (Plus cl)) pos s g k = Some G ->
  exists ds rest,
    s = ds +:+ rest /\ ds <> EmptyString /\ all_in cl ds = true /\
    k (pos + String.length ds)%nat rest (<[pred n := Some ds]> g) = Some G.
Proof.
  cbn [run]. destruct s as [|c t]; [discriminate|].
  destruct (accepts cl c) eqn:Hc; [|discriminate].
  intros H. apply rep_inv in H as (ds & rest & -> & Hall & Hk).
  exists (String c ds), rest. split; [reflexivity|]. split; [discriminate|]. split.
  - cbn [all_in]. rewrite Hc, Hall. reflexivity.
  - cbn [String.length]. rewrite Nat.add_succ_r.
    change (String c (ds +:+ rest)) with (String c ds +:+ rest) in Hk.
    replace (S pos + String.length ds)%nat
      with (pos + String.length (String c ds))%nat in Hk
      by (cbn [String.length]; lia).
    rewrite capture_length in Hk by reflexivity.
    cbn [String.length] in Hk. rewrite Nat.add_succ_r in Hk. exact Hk.
Qed.

(** A group made of one separator and a non-empty run. *)
Lemma run_group_sep_plus_inv n cl1 cl2 pos s g k G :
  run (Grp n (One cl1 ⋅ Plus cl2)) pos s g k = Some G ->
  exists c ds rest,
    s = String c (ds +:+ rest) /\ accepts cl1 c = true /\
    ds <> EmptyString /\ all_in cl2 ds = true /\
    k (pos + S (String.length ds))%nat rest (<[pred n := Some (String c ds)]> g)
    = Some G.
Proof.
  cbn [run]. destruct s as [|c t]; [discriminate|].
  destruct (accepts cl1 c) eqn:Hc; [|discriminate].
  destruct t as [|d t]; [discriminate|].
  destruct (accepts cl2 d) eqn:Hd; [|discriminate].
  intros H. apply rep_inv in H as (ds & rest & -> & Hall & Hk).
  exists c, (String d ds), rest. split; [reflexivity|]. split; [exact Hc|].
  split; [discriminate|]. split.
  - cbn [all_in]. rewrite Hd, Hall. reflexivity.
  - change (String c (String d (ds +:+ rest)))
      with (String c (String d ds) +:+ rest) in Hk.
    replace (S (S pos) + String.length ds)%nat
      with (pos + String.length (String c (String d ds)))%nat in Hk
      by (cbn [String.length]; lia).
    rewrite capture_length in Hk by reflexivity. exact Hk.
Qed.

(** A group made of one separator and a possibly empty run. *)
Lemma run_group_sep_star_inv n cl1 cl2 pos s g k G :
  run (Grp n (One cl1 ⋅ Star cl2)) pos s g k = Some G ->
  exists c ds rest,
    s = String c (ds +:+ rest) /\ accepts cl1 c = true /\
    all_in cl2 ds = true /\
    k (pos + S (String.length ds))%nat rest (<[pred n := Some (String c ds)]> g)
    = Some G.
Proof.
  cbn [run]. destruct s as [|c t]; [discriminate|].
  destruct (accepts cl1 c) eqn:Hc; [|discriminate].
  intros H. apply rep_inv in H as (ds & rest & -> & Hall & Hk).
  exists c, ds, rest. split; [reflexivity|]. split; [exact Hc|].
  split; [exact Hall|].
  change (String c (ds +:+ rest)) with (String c ds +:+ rest) in Hk.
  replace (S pos + String.length ds)%nat
    with (pos + String.length (String c ds))%nat in Hk
    by (cbn [String.length]; lia).
  rewrite capture_length in Hk by reflexivity. exact Hk.
Qed.

Lemma digits_iff (s : string) :
  digits s = true <-> s <> EmptyString /\ all_in Digit s = true.
Proof.
  destruct s as [|c t]; unfold digits.
  - split; [discriminate | intros [H _]; congruence].
  - split; [intros H; split; [discriminate | exact H] | intros [_ H]; exact H].
Qed.

Lemma lit_accepts c d : accepts (Lit d) c = true -> c = d.
Proof. cbn [accepts]. intros H. destruct (Ascii.eqb_spec c d); congruence. Qed.

(** The end of the pattern: what it matched and what it captured. *)
Lemma tail_inv pos s g a b c G :
  g = [a; b; c; None; None] ->
  run version_tail_re pos s g (fun _ _ g' => Some g') = Some G ->
  exists pa st nl,
    s = tail_string pa st nl /\ patch_ok pa = true /\ status_ok st = true /\
    G = [a; b; c; option_map (fun cd => String (fst cd) (snd cd)) pa;
         option_map (String "-") st].
Proof.
  intros -> H. unfold version_tail_re in H. rewrite run_cat in H.
  apply run_opt_inv in H as [H|H].
  - apply run_group_sep_plus_inv in H as (c3 & D & rest & -> & Hc3 & ND & DD & H).
    cbv beta in H. rewrite run_cat in H.
    assert (Hpa : patch_ok (Some (c3, D)) = true).
    { cbn [patch_ok]. rewrite Hc3. apply digits_iff. auto. }
    apply run_opt_inv in H as [H|H].
    + apply run_group_sep_star_inv in H as (c5 & st & rest' & -> & Hc5 & Hst & H).
      apply lit_accepts in Hc5 as ->.
      cbv beta in H. apply run_eos_inv in H as (nl & -> & H). injection H as <-.
      exists (Some (c3, D)), (Some st), nl. repeat split; auto.
    + cbv beta in H. apply run_eos_inv in H as (nl & -> & H). injection H as <-.
      exists (Some (c3, D)), None, nl. repeat split; auto.
  - cbv beta in H. rewrite run_cat in H. apply run_opt_inv in H as [H|H].
    + apply run_group_sep_star_inv in H as (c5 & st & rest' & -> & Hc5 & Hst & H).
      apply lit_accepts in Hc5 as ->.
      cbv beta in H. apply run_eos_inv in H as (nl & -> & H). injection H as <-.
      exists None, (Some st), nl. repeat split; auto.
    + cbv beta in H. apply run_eos_inv in H as (nl & -> & H). injection H as <-.
      exists None, None, nl. repeat split; auto.
Qed.

Lemma version_re_tail :
  version_re = Bos ⋅ Grp 1 (Plus Digit) ⋅ One AnyChar ⋅ Grp 2 (Plus Digit) ⋅
               One AnyChar ⋅ Grp 3 (Plus Digit) ⋅ version_tail_re.
Proof. reflexivity. Qed.

(** Every match of the pattern splits the string into well-formed parts and
    captures them. *)
Lemma match_inv (s : string) (G : groups) :
  match_groups 5 version_re s = Some G ->
  exists p, s = parts_string p /\ parts_ok p = true /\ G = parts_groups p.
Proof.
  unfold match_groups. rewrite version_re_tail. intros H.
  rewrite run_cat, run_bos0 in H. cbv beta in H.
  rewrite run_cat in H.
  apply run_group_plus_inv in H as (A & r1 & -> & NA & DA & H). cbv beta in H.
  rewrite run_cat in H. apply run_one_inv in H as (c1 & r2 & -> & Hc1 & H).
  rewrite run_cat in H.
  apply run_group_plus_inv in H as (B & r3 & -> & NB & DB & H). cbv beta in H.
  rewrite run_cat in H. apply run_one_inv in H as (c2 & r4 & -> & Hc2 & H).
  rewrite run_cat in H.
  apply run_group_plus_inv in H as (C & r5 & -> & NC & DC & H). cbv beta in H.
  eapply tail_inv in H as (pa & st & nl & -> & Hpa & Hst & ->); [|reflexivity].
  exists (mkParts A c1 B c2 C pa st nl). split; [reflexivity|]. split; [|reflexivity].
  unfold parts_ok. cbn [p_major p_sep1 p_minor p_sep2 p_micro p_patch p_status].
  rewrite Hc1, Hc2, Hpa, Hst.
  rewrite (proj2 (digits_iff A)), (proj2 (digits_iff B)), (proj2 (digits_iff C)) by auto.
  reflexivity.
Qed.

End Inversion.

Section Completeness.

Import Re.

Lemma run_one_complete cl pos c t g k :
  accepts cl c = true -> is_Some (k (S pos) t g) ->
  is_Some (run (One cl) pos (String c t) g k).
Proof. intros Hc Hk. cbn [run]. rewrite Hc. exact Hk. Qed.

Lemma run_opt_complete r pos s g k :
  is_Some (run r pos s g k) \/ is_Some (k pos s g) ->
  is_Some (run (Opt r) pos s g k).
Proof.
  cbn [run]. destruct (run r pos s g k); [eauto|].
  intros [[x Hx]|Hk]; [discriminate | exact Hk].
Qed.

Lemma run_eos_complete pos nl g k :
  is_Some (k pos (newline_text nl) g) ->
  is_Some (run Eos pos (newline_text nl) g k).
Proof.
  destruct nl; cbn [run newline_text]; [|auto].
  rewrite Ascii.eqb_refl. auto.
Qed.

Lemma run_group_plus_complete n cl pos ds rest g k :
  ds <> EmptyString -> all_in cl ds = true ->
  (forall g', is_Some (k (pos + String.length ds)%nat rest g')) ->
  is_Some (run (Grp n (Plus cl)) pos (ds +:+ rest) g k).
Proof.
  intros Hne Hall Hk. destruct ds as [|c t]; [congruence|].
  cbn [all_in] in Hall. apply andb_true_iff in Hall as [Hc Ht].
  change (String c t +:+ rest) with (String c (t +:+ rest)).
  cbn [run]. rewrite Hc. apply rep_complete; [exact Ht|].
  cbn [String.length] in Hk. rewrite Nat.add_succ_r in Hk. apply Hk.
Qed.

Lemma run_group_sep_plus_complete n cl1 cl2 pos c ds rest g k :
  accepts cl1 c = true -> ds <> EmptyString -> all_in cl2 ds = true ->
  (forall g', is_Some (k (pos + S (String.length ds))%nat rest g')) ->
  is_Some (run (Grp n (One cl1 ⋅ Plus cl2)) pos (String c (ds +:+ rest)) g k).
Proof.
  intros Hc Hne Hall Hk. destruct ds as [|d t]; [congruence|].
  cbn [all_in] in Hall. apply andb_true_iff in Hall as [Hd Ht].
  change (String d t +:+ rest) with (String d (t +:+ rest)).
  cbn [run]. rewrite Hc, Hd. apply rep_complete; [exact Ht|].
  cbn [String.length] in Hk.
  replace (S (S pos) + String.length t)%nat
    with (pos + S (S (String.length t)))%nat by lia.
  apply Hk.
Qed.

Lemma run_group_sep_star_complete n cl1 cl2 pos c ds rest g k :
  accepts cl1 c = true -> all_in cl2 ds = true ->
  (forall g', is_Some (k (pos + S (String.length ds))%nat rest g')) ->
  is_Some (run (Grp n (One cl1 ⋅ Star cl2)) pos (String c (ds +:+ rest)) g k).
Proof.
  intros Hc Hall Hk. cbn [run]. rewrite Hc. apply rep_complete; [exact Hall|].
  replace (S pos + String.length ds)%nat with (pos + S (String.length ds))%nat by lia.
  apply Hk.
Qed.

Lemma tail_complete pa st nl :
  patch_ok pa = true -> status_ok st = true ->
  forall pos g,
    is_Some (run version_tail_re pos (tail_string pa st nl) g (fun _ _ g' => Some g')).
Proof.
  intros Hpa Hst.
  assert (E : forall pos g, is_Some (run Eos pos (newline_text nl) g (fun _ _ g' => Some g'))).
  { intros. apply run_eos_complete. eauto. }
  assert (S5 : forall pos g,
             is_Some (run (Opt (Grp 5 (One (Lit "-") ⋅ Star NonSpace)) ⋅ Eos) pos
                          (status_text st +:+ newline_text nl) g
                          (fun _ _ g' => Some g'))).
  { intros pos g. rewrite run_cat. apply run_opt_complete.
    destruct st as [st|]; [left | right; apply E].
    cbn [status_text].
    change (String "-" st +:+ newline_text nl) with (String "-" (st +:+ newline_text nl)).
    apply run_group_sep_star_complete; [reflexivity | exact Hst | intros; apply E]. }
  intros pos g. unfold version_tail_re, tail_string. rewrite run_cat.
  apply run_opt_complete. destruct pa as [[c d]|]; [left | right; apply S5].
  cbn [patch_ok] in Hpa. apply andb_true_iff in Hpa as [Hc Hd].
  apply digits_iff in Hd as [Nd Dd]. cbn [patch_text].
  change (String c d +:+ status_text st +:+ newline_text nl)
    with (String c (d +:+ status_text st +:+ newline_text nl)).
  apply run_group_sep_plus_complete; auto.
Qed.

(** Every string made of well-formed parts is matched by the pattern. *)
Lemma match_complete (p : parts) :
  parts_ok p = true -> is_Some (match_groups 5 version_re (parts_string p)).
Proof.
  unfold parts_ok. rewrite !andb_true_iff.
  intros ((((((HA & H1) & HB) & H2) & HC) & Hpa) & Hst).
  apply digits_iff in HA as [NA DA]. apply digits_iff in HB as [NB DB].
  apply digits_iff in HC as [NC DC].
  unfold match_groups, parts_string. rewrite version_re_tail.
  rewrite run_cat, run_bos0. cbv beta. rewrite run_cat.
  apply run_group_plus_complete; [assumption .. |]. intros g1.
  rewrite run_cat. apply run_one_complete; [assumption|]. rewrite run_cat.
  apply run_group_plus_complete; [assumption .. |]. intros g2.
  rewrite run_cat. apply run_one_complete; [assumption|]. rewrite run_cat.
  apply run_group_plus_complete; [assumption .. |]. intros g3.
  apply tail_complete; assumption.
Qed.

End Completeness.

(** ** Reading numbers *)

Lemma uint_of_digit (c : ascii) (d : Decimal.uint) :
  Re.is_digit c = true -> exists d', uint_of_char c (Some d) = Some d'.
Proof.
  destruct c as [[] [] [] [] [] [] [] []]; intros H; vm_compute in H;
    try discriminate; eexists; reflexivity.
Qed.

Lemma uint_of_digits (s : string) :
  Re.all_in Re.Digit s = true -> exists d, NilEmpty.uint_of_string s = Some d.
Proof.
  induction s as [|c t IH]; intros H.
  - exists Decimal.Nil. reflexivity.
  - cbn [Re.all_in Re.accepts] in H. apply andb_true_iff in H as [Hc Ht].
    destruct (IH Ht) as [d Hd]. cbn [NilEmpty.uint_of_string]. rewrite Hd.
    apply uint_of_digit, Hc.
Qed.

(** [int] never yields a negative number, and succeeds on a run of digits. *)
Lemma int_nonneg (s : string) (z : Z) : Py.int s = Some z -> 0 <= z.
Proof.
  unfold Py.int. destruct s; [discriminate|].
  destruct (NilEmpty.uint_of_string _); [|discriminate].
  intros [= <-]. unfold Z.of_uint. apply N2Z.is_nonneg.
Qed.

Lemma int_digits (s : string) : digits s = true -> exists z, Py.int s = Some z.
Proof.
  intros H. apply digits_iff in H as [Hne Hall].
  destruct (uint_of_digits s Hall) as [d Hd].
  unfold Py.int. destruct s; [congruence|]. rewrite Hd. eexists. reflexivity.
Qed.

(** [__init__] on a string the pattern splits into [p]. *)
Lemma init_of_groups (s : string) (p : parts) :
  Re.match_groups 5 version_re s = Some (parts_groups p) ->
  __init__ s = match parts_version p with
               | Some v => Ok v
               | None => __init__ s
               end.
Proof.
  intros H. destruct (parts_version p) as [v|] eqn:Hv; [|reflexivity].
  unfold __init__. rewrite H. unfold parts_groups, parts_version in *.
  destruct (Py.int (p_major p)) as [a|] eqn:Ha; [|discriminate].
  destruct (Py.int (p_minor p)) as [b|] eqn:Hb; [|discriminate].
  destruct (Py.int (p_micro p)) as [c|] eqn:Hc; [|discriminate].
  destruct (p_patch p) as [[c4 d]|], (p_status p) as [st|];
    cbn [option_map fst snd Py.truthy_str default Py.drop1 bind];
    unfold id, int_or_raise; rewrite ?Ha, ?Hb, ?Hc;
    try (destruct (Py.int d) as [z|] eqn:Hd; [|discriminate]);
    cbn [bind]; rewrite ?Ha, ?Hb, ?Hc; cbn [bind Py.drop1];
    rewrite ?Hd; cbn [bind]; congruence.
Qed.

Lemma parts_version_some (p : parts) :
  parts_ok p = true -> exists v, parts_version p = Some v.
Proof.
  unfold parts_ok. rewrite !andb_true_iff.
  intros ((((((HA & _) & HB) & _) & HC) & Hpa) & _).
  destruct (int_digits _ HA) as [a Ha], (int_digits _ HB) as [b Hb],
           (int_digits _ HC) as [c Hc].
  unfold parts_version. rewrite Ha, Hb, Hc.
  destruct (p_patch p) as [[c4 d]|]; [|eauto].
  cbn [patch_ok] in Hpa. apply andb_true_iff in Hpa as [_ Hd].
  destruct (int_digits _ Hd) as [z ->]. eauto.
Qed.

(** ** What [__init__] accepts *)

Lemma init_inv (s : string) (v : Version) :
  __init__ s = Ok v ->
  exists p, s = parts_string p /\ parts_ok p = true /\ parts_version p = Some v.
Proof.
  intros H.
  destruct (Re.match_groups 5 version_re s) as [G|] eqn:HG.
  - destruct (match_inv s G HG) as (p & Hs & Hok & ->).
    exists p. split; [exact Hs|]. split; [exact Hok|].
    destruct (parts_version_some p Hok) as [v' Hv'].
    pose proof (init_of_groups s p HG) as E. rewrite Hv' in E. congruence.
  - unfold __init__ in H. rewrite HG in H. discriminate.
Qed.

(** X1: a Version is only ever built from a string that splits into
    well-formed parts, and its fields are the numbers and the status read
    from those parts. *)
Theorem init_sound (s : string) (v : Version) :
  __init__ s = Ok v ->
  exists p, s = parts_string p /\ parts_ok p = true /\ parts_version p = Some v.
Proof. apply init_inv. Qed.

Lemma init_sound_witness :
  exists p, "0.2.2.7-alpha"%string = parts_string p /\ parts_ok p = true /\
            parts_version p = Some (mkVersion 0 2 2 (Some 7) (Some "alpha")).
Proof. apply (init_sound "0.2.2.7-alpha"). vm_compute. reflexivity. Defined.

(** X2: every string that splits into well-formed parts is accepted. *)
Theorem init_complete (p : parts) :
  parts_ok p = true -> exists v, __init__ (parts_string p) = Ok v.
Proof.
  intros Hok. destruct (match_complete p Hok) as [G HG].
  destruct (match_inv _ G HG) as (p' & _ & Hok' & ->).
  destruct (parts_version_some p' Hok') as [v Hv].
  exists v. pose proof (init_of_groups _ p' HG) as E. rewrite Hv in E. exact E.
Qed.

Lemma init_complete_witness :
  exists v, __init__ (parts_string (mkParts "1" "x" "2" "3" "4" None (Some "5") true)) = Ok v.
Proof. apply init_complete. reflexivity. Defined.

(** X3: when [__init__] raises, the string does not split into well-formed
    parts, and the exception is the ValueError that quotes the whole
    string; the number conversions never fail. *)
Theorem init_error_names_input (s : string) (e : exn) :
  __init__ s = Raise e ->
  e = ValueError ("'" +:+ s +:+ "' isn't a properly formatted tor version") /\
  forall p, parts_ok p = true -> s <> parts_string p.
Proof.
  intros H.
  destruct (Re.match_groups 5 version_re s) as [G|] eqn:HG.
  - exfalso. destruct (match_inv s G HG) as (p & Hs & Hok & ->).
    destruct (parts_version_some p Hok) as [v' Hv'].
    pose proof (init_of_groups s p HG) as E. rewrite Hv' in E. congruence.
  - split.
    + unfold __init__ in H. rewrite HG in H. injection H as <-. reflexivity.
    + intros p Hok ->. destruct (match_complete p Hok) as [G HG']. congruence.
Qed.

Lemma init_error_names_input_witness :
  ValueError "'0.2.2.23.0' isn't a properly formatted tor version"
  = ValueError ("'" +:+ "0.2.2.23.0" +:+ "' isn't a properly formatted tor version") /\
  forall p, parts_ok p = true -> "0.2.2.23.0"%string <> parts_string p.
Proof. apply (init_error_names_input "0.2.2.23.0"). vm_compute. reflexivity. Defined.

(** ** Parsed versions *)

Lemma parts_fields (p : parts) (v : Version) :
  parts_ok p = true -> parts_version p = Some v ->
  0 <= major v /\ 0 <= minor v /\ 0 <= micro v /\
  (forall z, patch v = Some z -> 0 <= z) /\
  (forall st, status v = Some st -> Re.all_in Re.NonSpace st = true).
Proof.
  unfold parts_ok, parts_version. rewrite !andb_true_iff.
  intros (_ & Hst) Hv.
  destruct (Py.int (p_major p)) as [a|] eqn:Ha; [|discriminate].
  destruct (Py.int (p_minor p)) as [b|] eqn:Hb; [|discriminate].
  destruct (Py.int (p_micro p)) as [c|] eqn:Hc; [|discriminate].
  apply int_nonneg in Ha, Hb, Hc.
  assert (Hs : forall st, p_status p = Some st -> Re.all_in Re.NonSpace st = true).
  { intros st E. rewrite E in Hst. exact Hst. }
  destruct (p_patch p) as [[c4 d]|].
  - destruct (Py.int d) as [z|] eqn:Hd; [|discriminate]. apply int_nonneg in Hd.
    injection Hv as <-. cbn. repeat split; auto. intros z' [= <-]. exact Hd.
  - injection Hv as <-. cbn. repeat split; auto. discriminate.
Qed.

Lemma parsed_fields (s : string) (v : Version) :
  __init__ s = Ok v ->
  0 <= major v /\ 0 <= minor v /\ 0 <= micro v /\
  (forall z, patch v = Some z -> 0 <= z) /\
  (forall st, status v = Some st -> Re.all_in Re.NonSpace st = true).
Proof.
  intros H. destruct (init_inv s v H) as (p & _ & Hok & Hv).
  exact (parts_fields p v Hok Hv).
Qed.

Lemma parsed_key (s : string) (v : Version) :
  __init__ s = Ok v -> spec_key v = raw_key v.
Proof.
  intros H. destruct (parsed_fields s v H) as (Ha & Hb & Hc & Hp & _).
  unfold spec_key, raw_key. rewrite !Z.max_r; auto.
  destruct (patch v) as [z|]; [apply Hp; reflexivity | cbn; lia].
Qed.

(** X4: a parsed Version has no negative number (major, minor, micro, and
    patch when there is one), and its status, when there is one, contains
    no whitespace. *)
Theorem init_fields (s : string) (v : Version) :
  __init__ s = Ok v ->
  0 <= major v /\ 0 <= minor v /\ 0 <= micro v /\
  (forall z, patch v = Some z -> 0 <= z) /\
  (forall st, status v = Some st -> Re.all_in Re.NonSpace st = true).
Proof. apply parsed_fields. Qed.

Lemma init_fields_witness :
  let v := mkVersion 0 2 2 (Some 7) (Some "alpha") in
  0 <= major v /\ 0 <= minor v /\ 0 <= micro v /\
  (forall z, patch v = Some z -> 0 <= z) /\
  (forall st, status v = Some st -> Re.all_in Re.NonSpace st = true).
Proof. apply (init_fields "0.2.2.7-alpha"). vm_compute. reflexivity. Defined.

(** X5: on two parsed Versions the floor of [__cmp__] changes nothing: the
    result is the lexicographic comparison of the numbers themselves, an
    absent patch counting as 0. *)
Theorem cmp_parsed (s t : string) (a b : Version) :
  __init__ s = Ok a -> __init__ t = Ok b ->
  __cmp__ a (PyVersion b) = spec_lex (raw_key a) (raw_key b).
Proof.
  intros Ha Hb. rewrite cmp_lex, (parsed_key s a Ha), (parsed_key t b Hb).
  reflexivity.
Qed.

Lemma cmp_parsed_witness :
  __cmp__ (mkVersion 0 1 9 (Some 9) None) (PyVersion (mkVersion 0 2 0 (Some 30) None))
  = spec_lex [0; 1; 9; 9] [0; 2; 0; 30].
Proof.
  apply (cmp_parsed "0.1.9.9" "0.2.0.30"); vm_compute; reflexivity.
Defined.

(** X6: a tor that supports "GETINFO config-text" also supports
    "ControlSocket <path>": [v >= Requirement.GETINFO_CONFIG_TEXT] implies
    [v >= Requirement.CONTROL_SOCKET], for every Version. *)
Theorem config_text_implies_control_socket (v : Version) :
  py_ge v (PyVersion (minimumVersion GETINFO_CONFIG_TEXT)) = true ->
  py_ge v (PyVersion (minimumVersion CONTROL_SOCKET)) = true.
Proof.
  unfold py_ge. rewrite !cmp_lex.
  destruct v as [a b c [d|] st]; unfold spec_key; cbn [major minor micro patch
    minimumVersion default spec_lex];
    repeat match goal with
           | |- context [?x <? ?y] => destruct (Z.ltb_spec x y); try lia
           end; cbn; try reflexivity; try discriminate.
Qed.

Lemma config_text_implies_control_socket_witness :
  py_ge (mkVersion 0 2 3 (Some 1) (Some "alpha"))
        (PyVersion (minimumVersion CONTROL_SOCKET)) = true.
Proof.
  apply (config_text_implies_control_socket (mkVersion 0 2 3 (Some 1) (Some "alpha"))).
  reflexivity.
Defined.

(** ** Strings that can be read in one way only *)

Section Deterministic.

Import Re.

Lemma run_group_sep_plus n cl1 cl2 pos c ds rest g k G :
  accepts cl1 c = true -> ds <> EmptyString -> all_in cl2 ds = true ->
  stops cl2 rest = true ->
  k (pos + S (String.length ds))%nat rest (<[pred n := Some (String c ds)]> g) = Some G ->
  run (Grp n (One cl1 ⋅ Plus cl2)) pos (String c (ds +:+ rest)) g k = Some G.
Proof.
  intros Hc Hne Hall Hstop Hk. destruct ds as [|d t]; [congruence|].
  cbn [all_in] in Hall. apply andb_true_iff in Hall as [Hd Ht].
  change (String d t +:+ rest) with (String d (t +:+ rest)).
  cbn [run]. rewrite Hc, Hd. apply rep_takes_run; auto.
  change (String c (String d (t +:+ rest))) with (String c (String d t) +:+ rest).
  replace (S (S pos) + String.length t)%nat
    with (pos + String.length (String c (String d t)))%nat
    by (cbn [String.length]; lia).
  rewrite capture_length by reflexivity. exact Hk.
Qed.

Lemma run_group_sep_star n cl1 cl2 pos c ds rest g k G :
  accepts cl1 c = true -> all_in cl2 ds = true -> stops cl2 rest = true ->
  k (pos + S (String.length ds))%nat rest (<[pred n := Some (String c ds)]> g) = Some G ->
  run (Grp n (One cl1 ⋅ Star cl2)) pos (String c (ds +:+ rest)) g k = Some G.
Proof.
  intros Hc Hall Hstop Hk. cbn [run]. rewrite Hc. apply rep_takes_run; auto.
  change (String c (ds +:+ rest)) with (String c ds +:+ rest).
  replace (S pos + String.length ds)%nat
    with (pos + String.length (String c ds))%nat
    by (cbn [String.length]; lia).
  rewrite capture_length by reflexivity. exact Hk.
Qed.

Lemma run_opt_take r pos s g k G :
  run r pos s g k = Some G -> run (Opt r) pos s g k = Some G.
Proof. intros H. cbn [run]. rewrite H. reflexivity. Qed.

Lemma run_opt_skip r pos s g k :
  run r pos s g k = None -> run (Opt r) pos s g k = k pos s g.
Proof. intros H. cbn [run]. rewrite H. reflexivity. Qed.

(** The status group and the end of the string. *)
Lemma status_run st nl pos a b c x :
  status_ok st = true ->
  run (Opt (Grp 5 (One (Lit "-") ⋅ Star NonSpace)) ⋅ Eos) pos
      (status_text st +:+ newline_text nl) [a; b; c; x; None]
      (fun _ _ g' => Some g')
  = Some [a; b; c; x; option_map (String "-") st].
Proof.
  intros Hst. rewrite run_cat. destruct st as [st|].
  - apply run_opt_take. cbn [status_text].
    change (String "-" st +:+ newline_text nl) with (String "-" (st +:+ newline_text nl)).
    apply run_group_sep_star; [reflexivity | exact Hst | destruct nl; reflexivity |].
    destruct nl; reflexivity.
  - destruct nl; reflexivity.
Qed.

(** Without a patch, the fourth group cannot take the dash of a status
    that does not begin with a digit. *)
Lemma patch_group_fails st nl pos g k :
  match st with Some t => starts_with_digit t = false | None => True end ->
  run (Grp 4 (One AnyChar ⋅ Plus Digit)) pos
      (status_text st +:+ newline_text nl) g k = None.
Proof.
  intros H. destruct st as [[|c t]|]; try (destruct nl; reflexivity).
  cbn [starts_with_digit] in H. cbn [status_text].
  change (String "-" (String c t) +:+ newline_text nl)
    with (String "-" (String c (t +:+ newline_text nl))).
  cbn [run]. change (accepts AnyChar "-") with true. cbn [accepts]. rewrite H.
  reflexivity.
Qed.

Lemma tail_run pa st nl pos a b c :
  patch_ok pa = true -> status_ok st = true ->
  match pa, st with
  | None, Some t => starts_with_digit t = false
  | _, _ => True
  end ->
  run version_tail_re pos (tail_string pa st nl) [a; b; c; None; None]
      (fun _ _ g' => Some g')
  = Some [a; b; c; option_map (fun cd => String (fst cd) (snd cd)) pa;
          option_map (String "-") st].
Proof.
  intros Hpa Hst Hamb. unfold version_tail_re, tail_string. rewrite run_cat.
  destruct pa as [[c4 d]|].
  - cbn [patch_ok] in Hpa. apply andb_true_iff in Hpa as [Hc Hd].
    apply digits_iff in Hd as [Nd Dd]. cbn [patch_text].
    change (String c4 d +:+ status_text st +:+ newline_text nl)
      with (String c4 (d +:+ status_text st +:+ newline_text nl)).
    apply run_opt_take. apply run_group_sep_plus; auto.
    + destruct st, nl; reflexivity.
    + cbv beta. apply status_run. exact Hst.
  - cbn [patch_text]. change (EmptyString +:+ status_text st +:+ newline_text nl)
      with (status_text st +:+ newline_text nl).
    rewrite run_opt_skip.
    + apply status_run. exact Hst.
    + apply patch_group_fails. destruct st; auto.
Qed.

Lemma not_digit_stops c t : is_digit c = false -> stops Digit (String c t) = true.
Proof. intros H. cbn [stops accepts]. rewrite H. reflexivity. Qed.

(** On unambiguous parts the groups of the match are the parts. *)
Lemma match_unambiguous (p : parts) :
  parts_ok p = true -> unambiguous p = true ->
  match_groups 5 version_re (parts_string p) = Some (parts_groups p).
Proof.
  unfold parts_ok, unambiguous. rewrite !andb_true_iff, !negb_true_iff.
  intros ((((((HA & H1) & HB) & H2) & HC) & Hpa) & Hst) ((S1 & S2) & Hamb).
  apply digits_iff in HA as [NA DA]. apply digits_iff in HB as [NB DB].
  apply digits_iff in HC as [NC DC].
  unfold match_groups, parts_string, parts_groups. rewrite version_re_tail.
  rewrite run_cat, run_bos0. cbv beta. rewrite run_cat.
  apply run_group_plus; [assumption | assumption | apply not_digit_stops, S1 |].
  cbv beta. rewrite run_cat, run_one by assumption. rewrite run_cat.
  apply run_group_plus; [assumption | assumption | apply not_digit_stops, S2 |].
  cbv beta. rewrite run_cat, run_one by assumption. rewrite run_cat.
  apply run_group_plus; [assumption | assumption | |].
  - unfold tail_string. destruct (p_patch p) as [[c4 d]|].
    + apply negb_true_iff in Hamb. apply not_digit_stops, Hamb.
    + destruct (p_status p), (p_newline p); reflexivity.
  - cbv beta. apply tail_run; auto.
    destruct (p_patch p) as [[c4 d]|], (p_status p) as [t|]; auto.
    apply negb_true_iff, Hamb.
Qed.

End Deterministic.

(** X7: when the parts of a string can be read in one way only (no
    separator is a digit, and a status right after the micro number does
    not begin with a digit), [__init__] returns the Version whose fields
    are the numbers of the runs, the patch when there is one, and the
    status text after the dash; a final newline is ignored. *)
Theorem init_unambiguous (p : parts) :
  parts_ok p = true -> unambiguous p = true ->
  exists v, parts_version p = Some v /\ __init__ (parts_string p) = Ok v.
Proof.
  intros Hok Hun. destruct (parts_version_some p Hok) as [v Hv].
  exists v. split; [exact Hv|].
  pose proof (init_of_groups _ p (match_unambiguous p Hok Hun)) as E.
  rewrite Hv in E. exact E.
Qed.

Lemma init_unambiguous_witness :
  exists v,
    parts_version (mkParts "0" "." "2" "." "2" (Some ("."%char, "23")) (Some "alpha") true)
    = Some v /\
    __init__ (parts_string
                (mkParts "0" "." "2" "." "2" (Some ("."%char, "23")) (Some "alpha") true))
    = Ok v.
Proof. apply init_unambiguous; reflexivity. Defined.

(** ** Rendering and reading back *)

Lemma str_parts (v : Version) : __str__ v = parts_string (version_parts v).
Proof.
  unfold __str__, parts_string, version_parts, tail_string.
  cbn [p_major p_sep1 p_minor p_sep2 p_micro p_patch p_status p_newline newline_text].
  change ("." +:+ Py.fmt_i (minor v) +:+ "." +:+ Py.fmt_i (micro v) +:+ ?x)
    with (String "." (Py.fmt_i (minor v) +:+ String "." (Py.fmt_i (micro v) +:+ x))).
  do 3 f_equal.
  destruct (Py.truthy_int (patch v)); destruct (status v) as [[|c t]|];
    cbn [Py.truthy_str patch_text status_text default];
    unfold id; rewrite ?append_empty_r; reflexivity.
Qed.

Lemma digits_fmt_i (a : Z) : 0 <= a -> digits (Py.fmt_i a) = true.
Proof. intros Ha. apply digits_iff, fmt_i_digits, Ha. Qed.

Lemma faithful_parts (v : Version) :
  renders_faithfully v = true ->
  parts_ok (version_parts v) = true /\ unambiguous (version_parts v) = true /\
  parts_version (version_parts v) = Some v.
Proof.
  destruct v as [a b c pa st]. unfold renders_faithfully.
  cbn [major minor micro patch status]. rewrite !andb_true_iff.
  intros ((((Ha & Hb) & Hc) & Hpa) & Hst).
  apply Z.leb_le in Ha, Hb, Hc.
  assert (Hp : match pa with Some z => 0 < z | None => True end)
    by (destruct pa; [apply Z.ltb_lt, Hpa | exact I]).
  assert (Ht : Py.truthy_int pa = match pa with Some _ => true | None => false end).
  { destruct pa as [z|]; [|reflexivity]. cbn.
    destruct (Z.eqb_spec z 0); [lia | reflexivity]. }
  assert (Hs : (if Py.truthy_str st then st else None) = st /\
               status_ok st = true /\
               match pa, st with
               | None, Some t => starts_with_digit t = false
               | _, _ => True
               end).
  { destruct st as [[|c0 t]|]; [discriminate | | destruct pa; auto].
    rewrite !andb_true_iff in Hst. destruct Hst as ((_ & Hall) & Hd).
    split; [reflexivity|]. split; [exact Hall|].
    destruct pa; [exact I | apply negb_true_iff, Hd]. }
  destruct Hs as (Es & Hok & Hamb).
  unfold parts_ok, unambiguous, parts_version, version_parts.
  cbn [p_major p_sep1 p_minor p_sep2 p_micro p_patch p_status major minor micro
       patch status]. rewrite Ht, Es, Hok.
  rewrite !digits_fmt_i, !int_fmt_i by assumption.
  destruct pa as [z|]; cbn [default patch_ok].
  - unfold id. rewrite digits_fmt_i, int_fmt_i by lia. repeat split; reflexivity.
  - repeat split; try reflexivity.
    destruct st; cbn; [rewrite Hamb|]; reflexivity.
Qed.

(** X8: rendering and reading back gives the same Version, when its
    numbers are not negative, its patch (if any) is not 0, and its status
    (if any) is a non-empty run of non-space characters that does not begin
    with a digit unless a patch precedes it. *)
Theorem str_init_roundtrip (v : Version) :
  renders_faithfully v = true -> __init__ (__str__ v) = Ok v.
Proof.
  intros H. destruct (faithful_parts v H) as (Hok & Hun & Hv).
  rewrite str_parts.
  pose proof (init_of_groups _ _ (match_unambiguous _ Hok Hun)) as E.
  rewrite Hv in E. exact E.
Qed.

Lemma str_init_roundtrip_witness :
  __init__ (__str__ (mkVersion 0 2 2 (Some 7) (Some "alpha")))
  = Ok (mkVersion 0 2 2 (Some 7) (Some "alpha")).
Proof. apply str_init_roundtrip. reflexivity. Defined.

(** ** The cache across calls *)

Section CacheFacts.

Variable system_call : string -> call_outcome.

(** The three ways a call can go. *)
Lemma get_cases (tor_cmd : string) (w : world) :
  let version_cmd := tor_cmd +:+ " --version" in
  (exists v, VERSION_CACHE w !! tor_cmd = Some v /\
             get_system_tor_version system_call tor_cmd w = (Ok v, w)) \/
  (VERSION_CACHE w !! tor_cmd = None /\
   ((exists v, get_system_tor_version system_call tor_cmd w
               = (Ok v, cache_store tor_cmd v (log_call version_cmd w))) \/
    (exists msg, get_system_tor_version system_call tor_cmd w
                 = (Raise (IOError msg), log_call version_cmd w)))).
Proof.
  intros version_cmd. unfold get_system_tor_version.
  destruct (VERSION_CACHE w !! tor_cmd) as [v|] eqn:Hc.
  { left. exists v. unfold cache_get. rewrite Hc. auto. }
  right. split; [reflexivity|]. unfold query_tor. fold version_cmd.
  destruct (system_call version_cmd) as [msg|out]; [right; eauto|].
  destruct (Py.truthy_list out); [|right; eauto].
  destruct (Py.last_item (default [] out)) as [last_line|]; [|right; eauto].
  destruct (Py.startswith last_line "Tor version " && Py.endswith last_line ".");
    [|right; eauto].
  destruct (__init__ (Py.slice_to_last 12 last_line)) as [v|e] eqn:Hinit.
  - left. exists v. unfold cache_get, cache_store. cbn [VERSION_CACHE].
    rewrite lookup_insert_eq. reflexivity.
  - right. destruct (init_raises_ValueError _ _ Hinit) as [m ->]. eauto.
Qed.

End CacheFacts.

(** X9: whatever the state and whatever the command does,
    [get_system_tor_version] raises nothing but IOError. *)
Theorem discovery_raises_IOError (system_call : string -> call_outcome)
        (tor_cmd : string) (w w' : world) (e : exn) :
  get_system_tor_version system_call tor_cmd w = (Raise e, w') ->
  exists msg, e = IOError msg.
Proof.
  intros H.
  destruct (get_cases system_call tor_cmd w) as [(v & _ & E)|(_ & [(v & E)|(msg & E)])];
    rewrite E in H; [discriminate | discriminate |].
  injection H as <- _. eauto.
Qed.

Lemma discovery_raises_IOError_witness :
  exists msg, IOError "'tor --version' didn't have any output" = IOError msg.
Proof.
  apply (discovery_raises_IOError (fun _ => CallReturns None) "tor"
           (mkWorld ∅ []) (mkWorld ∅ ["tor --version"])).
  vm_compute. reflexivity.
Defined.

(** X10: once a call has returned a Version, every later call for the same
    command returns that Version and changes nothing, whatever the command
    would do by then. *)
Theorem discovery_memoized (system_call system_call' : string -> call_outcome)
        (tor_cmd : string) (w w' : world) (v : Version) :
  get_system_tor_version system_call tor_cmd w = (Ok v, w') ->
  get_system_tor_version system_call' tor_cmd w' = (Ok v, w').
Proof.
  intros H.
  assert (Hc : VERSION_CACHE w' !! tor_cmd = Some v).
  { destruct (get_cases system_call tor_cmd w)
      as [(v0 & Hc & E)|(_ & [(v0 & E)|(msg & E)])];
      rewrite E in H; try discriminate; injection H as <- <-; [exact Hc|].
    unfold cache_store. cbn [VERSION_CACHE]. apply lookup_insert_eq. }
  unfold get_system_tor_version, cache_get. rewrite Hc. reflexivity.
Qed.

Lemma discovery_memoized_witness :
  get_system_tor_version (fun _ => CallRaises "gone") "tor"
    (cache_store "tor" (mkVersion 0 2 1 (Some 30) None)
       (log_call "tor --version" (mkWorld ∅ [])))
  = (Ok (mkVersion 0 2 1 (Some 30) None),
     cache_store "tor" (mkVersion 0 2 1 (Some 30) None)
       (log_call "tor --version" (mkWorld ∅ []))).
Proof.
  apply (discovery_memoized (fun _ => CallReturns (Some ["Tor version 0.2.1.30."]))
           _ "tor" (mkWorld ∅ [])).
  vm_compute. reflexivity.
Defined.

(** X11: a call that raises leaves the cache as it was and only adds the
    one command it ran to the log; the failure is not remembered, so the
    next call for the same command runs the command again. *)
Theorem discovery_failure_not_cached (system_call system_call' : string -> call_outcome)
        (tor_cmd : string) (w w' : world) (e : exn) :
  get_system_tor_version system_call tor_cmd w = (Raise e, w') ->
  let version_cmd := tor_cmd +:+ " --version" in
  VERSION_CACHE w' = VERSION_CACHE w /\
  calls w' = calls w ++ [version_cmd] /\
  calls (snd (get_system_tor_version system_call' tor_cmd w'))
  = calls w ++ [version_cmd; version_cmd].
Proof.
  intros H version_cmd. subst version_cmd.
  destruct (get_cases system_call tor_cmd w)
    as [(v0 & _ & E)|(Hc & [(v0 & E)|(msg & E)])];
    rewrite E in H; try discriminate. injection H as _ <-.
  split; [reflexivity|]. split; [reflexivity|].
  destruct (get_cases system_call' tor_cmd (log_call (tor_cmd +:+ " --version") w))
    as [(v1 & Hc1 & _)|(_ & [(v1 & E1)|(msg1 & E1)])].
  - cbn [log_call VERSION_CACHE] in Hc1. congruence.
  - rewrite E1. cbn. rewrite <- app_assoc. reflexivity.
  - rewrite E1. cbn. rewrite <- app_assoc. reflexivity.
Qed.

Lemma discovery_failure_not_cached_witness :
  VERSION_CACHE (mkWorld ∅ ["tor --version"]) = ∅ /\
  calls (mkWorld ∅ ["tor --version"]) = [] ++ ["tor" +:+ " --version"] /\
  calls (snd (get_system_tor_version
                (fun _ => CallReturns (Some ["Tor version 0.2.1.30."])) "tor"
                (mkWorld ∅ ["tor --version"])))
  = [] ++ ["tor" +:+ " --version"; "tor" +:+ " --version"].
Proof.
  apply (discovery_failure_not_cached (fun _ => CallRaises "tor: command not found")
           _ "tor" (mkWorld ∅ []) _ (IOError "tor: command not found")).
  vm_compute. reflexivity.
Defined.

(** X12: a call never removes or overwrites a cache entry: entries for
    other commands are untouched and an entry that was there stays as it
    was; the log only grows, by at most one command. *)
Theorem discovery_frame (system_call : string -> call_outcome)
        (tor_cmd : string) (w w' : world) (r : result Version) :
  get_system_tor_version system_call tor_cmd w = (r, w') ->
  (forall k, k <> tor_cmd -> VERSION_CACHE w' !! k = VERSION_CACHE w !! k) /\
  (forall k u, VERSION_CACHE w !! k = Some u -> VERSION_CACHE w' !! k = Some u) /\
  exists l, calls w' = calls w ++ l /\ (length l <= 1)%nat.
Proof.
  intros H.
  destruct (get_cases system_call tor_cmd w)
    as [(v0 & Hc & E)|(Hc & [(v0 & E)|(msg & E)])];
    rewrite E in H; injection H as <- <-.
  - repeat split; auto. exists []. rewrite app_nil_r. split; [reflexivity | cbn; lia].
  - unfold cache_store, log_call. cbn [VERSION_CACHE calls]. repeat split.
    + intros k Hk. apply lookup_insert_ne. congruence.
    + intros k u Hu. rewrite lookup_insert_ne; [exact Hu | congruence].
    + eexists. split; [reflexivity | cbn; lia].
  - unfold log_call. cbn [VERSION_CACHE calls]. repeat split; auto.
    eexists. split; [reflexivity | cbn; lia].
Qed.

Lemma discovery_frame_witness :
  let w := mkWorld {[ "/usr/sbin/tor" := mkVersion 0 2 0 (Some 30) None ]} [] in
  let w' := cache_store "tor" (mkVersion 0 2 1 (Some 30) None)
              (log_call "tor --version" w) in
  (forall k, k <> "tor" -> VERSION_CACHE w' !! k = VERSION_CACHE w !! k) /\
  (forall k u, VERSION_CACHE w !! k = Some u -> VERSION_CACHE w' !! k = Some u) /\
  exists l, calls w' = calls w ++ l /\ (length l <= 1)%nat.
Proof.
  cbv zeta.
  apply (discovery_frame (fun _ => CallReturns (Some ["Tor version 0.2.1.30."]))
           "tor" _ _ (Ok (mkVersion 0 2 1 (Some 30) None))).
  vm_compute. reflexivity.
Defined.

(** X13: only the last line of the output counts: two outputs with the
    same last line give the same result and the same state. *)
Theorem discovery_last_line_only (sc1 sc2 : string -> call_outcome)
        (tor_cmd : string) (w : world) (lines1 lines2 : list string) :
  sc1 (tor_cmd +:+ " --version") = CallReturns (Some lines1) ->
  sc2 (tor_cmd +:+ " --version") = CallReturns (Some lines2) ->
  last lines1 = last lines2 ->
  get_system_tor_version sc1 tor_cmd w = get_system_tor_version sc2 tor_cmd w.
Proof.
  intros H1 H2 Hl. unfold get_system_tor_version, query_tor. rewrite H1, H2.
  cbn [default]. unfold id, Py.last_item. rewrite Hl.
  assert (Ht : Py.truthy_list (Some lines1) = Py.truthy_list (Some lines2)).
  { destruct lines1, lines2; try reflexivity; cbn in Hl.
    - symmetry in Hl. apply last_None in Hl. discriminate.
    - apply last_None in Hl. discriminate. }
  rewrite Ht. reflexivity.
Qed.

Lemma discovery_last_line_only_witness :
  get_system_tor_version
    (fun _ => CallReturns (Some [notice_line; "Tor version 0.2.1.30."])) "tor"
    (mkWorld ∅ [])
  = get_system_tor_version
      (fun _ => CallReturns (Some ["Tor version 0.2.1.30."])) "tor" (mkWorld ∅ []).
Proof.
  apply (discovery_last_line_only _ _ "tor" (mkWorld ∅ [])
           [notice_line; "Tor version 0.2.1.30."] ["Tor version 0.2.1.30."]);
    reflexivity.
Defined.

(** ** Rendering a parsed version *)

Lemma parts_accepted (p : parts) :
  parts_ok p = true -> exists v, __init__ (parts_string p) = Ok v.
Proof.
  intros Hok. destruct (match_complete p Hok) as [G HG].
  destruct (match_inv _ G HG) as (p' & _ & Hok' & ->).
  destruct (parts_version_some p' Hok') as [v Hv].
  exists v. pose proof (init_of_groups _ p' HG) as E. rewrite Hv in E. exact E.
Qed.

(** X14: the rendering of a parsed Version is itself a string [__init__]
    accepts. *)
Theorem str_of_parsed_accepted (s : string) (v : Version) :
  __init__ s = Ok v -> exists v', __init__ (__str__ v) = Ok v'.
Proof.
  intros H. destruct (parsed_fields s v H) as (Ha & Hb & Hc & Hp & Hs).
  rewrite str_parts. apply parts_accepted.
  unfold parts_ok, version_parts.
  cbn [p_major p_sep1 p_minor p_sep2 p_micro p_patch p_status].
  rewrite !digits_fmt_i by assumption.
  change (Re.accepts Re.AnyChar ".") with true. cbn [andb].
  apply andb_true_iff. split.
  - destruct (patch v) as [z|]; [|reflexivity]. cbn [Py.truthy_int default].
    destruct (negb (z =? 0)); [|reflexivity]. cbn [patch_ok].
    change (Re.accepts Re.AnyChar ".") with true. unfold id.
    rewrite digits_fmt_i by (apply Hp; reflexivity). reflexivity.
  - destruct (status v) as [st|]; [|reflexivity].
    destruct (Py.truthy_str (Some st)); [|reflexivity].
    cbn [status_ok]. apply Hs. reflexivity.
Qed.

Lemma str_of_parsed_accepted_witness :
  exists v', __init__ (__str__ (mkVersion 1 2 3 (Some 0) (Some "4"))) = Ok v'.
Proof. apply (str_of_parsed_accepted "1.2.3.0-4"). vm_compute. reflexivity. Defined.
